(** * BPMS prototype firmware (main.c, can_telem.h): a shallow embedding

    The firmware monitors the cells of a battery pack through two LTC6804
    front ends, smooths each raw reading with a moving sum over a sample
    history, decides which cells to discharge and packs the result in a
    telemetry page.  This file embeds the functions of [main.c] that carry
    the logic (the cell scan, the filter hidden in [print_cell_voltages],
    [balance], [update_bms_page], one turn of the [main] loop) and the
    X-macro tables of [can_telem.h], and proves properties of them.

    Machine integers are [Z] with the wrap-around written out, arrays are
    lists read and written by index, globals are fields of a [state] record
    that every function threads, and what a function sends to the outside
    (chip-select pins, configuration writes, debug text) is a list of
    [event]s returned beside the state. *)

From Stdlib Require Import ZArith Lia Bool Sorted.
From stdpp Require Import base numbers list.

Local Open Scope Z_scope.

(** ** Constants of main.h

    [main.h] is not part of the sources at hand: its constants are the
    fields of a class, so every definition below reads [N_SAMPLES] or
    [BALANCE_THRESHOLD] the way the C code does and every theorem holds for
    whatever values the header gives them. *)

Class main_h := {
  N_CELLS : nat;
  N_SAMPLES : nat;
  N_CELLS_FINAL : nat;
  N_ADC_CHANNELS : nat;
  BALANCE_THRESHOLD : Z
}.

(** ** Machine integers *)

(** [unsigned int16] and [unsigned int32] arithmetic wraps around. *)
Definition wrap16 (x : Z) : Z := x mod 2 ^ 16.
Definition wrap32 (x : Z) : Z := x mod 2 ^ 32.

(** Storing into a signed [int16] or [int8] keeps the low bits and reads
    them in two's complement. *)
Definition to_int16 (x : Z) : Z := (x + 2 ^ 15) mod 2 ^ 16 - 2 ^ 15.
Definition to_int8 (x : Z) : Z := (x + 2 ^ 7) mod 2 ^ 8 - 2 ^ 7.
Definition to_int32 (x : Z) : Z := (x + 2 ^ 31) mod 2 ^ 32 - 2 ^ 31.

(** [1 << i] for a small index [i]. *)
Definition bit (i : nat) : Z := Z.shiftl 1 (Z.of_nat i).

(** ** Data model *)

(** [cell_t]: the fields main.c reads and writes. *)
Record cell_t := mk_cell {
  voltage : Z;
  average_voltage : Z;
  samples : list Z;
  temperature : Z;
  discharge : Z;
  ov_flag : Z;
  uv_flag : Z;
  ot_flag : Z
}.

(** A cell of static storage before any write: every byte is zero, the
    history holds [n] zero samples. *)
Definition zero_cell (n : nat) : cell_t :=
  mk_cell 0 0 (replicate n 0) 0 0 0 0 0.

(** [bms_page_t] *)
Record bms_page_t := mk_page {
  voltages : list Z;
  temps : list Z;
  current : Z;
  page_discharge : Z
}.

(** The chip-select pins of the two front ends. *)
Inductive pin := CSBI1 | CSBI2.

(** What the firmware does to the outside world, in order. *)
Inductive event :=
| ev_read_cell_voltages
| ev_output_low (p : pin)
| ev_output_high (p : pin)
| ev_write_config (mask : Z)
| ev_printf (args : list Z)
| ev_delay_ms (ms : Z).

(** The globals of main.c (and [g_discharge1], [g_discharge2], which
    main.c shares with the LTC6804 driver).  [g_temps] holds floats in
    the source; the embedding keeps of each temperature its integer part,
    which is all that [update_bms_page] reads of it. *)
Record state := mk_state {
  g_cell : list cell_t;
  g_temps : list Z;
  g_highest_voltage_cell_index : Z;
  g_lowest_voltage_cell_index : Z;
  g_discharge1 : Z;
  g_discharge2 : Z;
  g_bms_page : bms_page_t
}.

(** Array reads.  An index outside the array is undefined behaviour in C;
    the embedding reads zero there, and the theorems that depend on a read
    assume the index is inside. *)
Definition rd (l : list Z) (i : nat) : Z := default 0 (l !! i).

Definition cell_at (cells : list cell_t) (i : nat) : cell_t :=
  default (zero_cell 0) (cells !! i).

(** [g_cell[i].average_voltage] *)
Definition avg (cells : list cell_t) (i : nat) : Z :=
  average_voltage (cell_at cells i).

(** Field writes. *)
Definition set_voltage (v : Z) (c : cell_t) : cell_t :=
  mk_cell v (average_voltage c) (samples c) (temperature c)
          (discharge c) (ov_flag c) (uv_flag c) (ot_flag c).

Definition set_discharge (d : Z) (c : cell_t) : cell_t :=
  mk_cell (voltage c) (average_voltage c) (samples c) (temperature c)
          d (ov_flag c) (uv_flag c) (ot_flag c).

Definition set_filter (smp : list Z) (a : Z) (c : cell_t) : cell_t :=
  mk_cell (voltage c) a smp (temperature c)
          (discharge c) (ov_flag c) (uv_flag c) (ot_flag c).

Definition set_cells (cells : list cell_t) (s : state) : state :=
  mk_state cells (g_temps s) (g_highest_voltage_cell_index s)
           (g_lowest_voltage_cell_index s) (g_discharge1 s) (g_discharge2 s)
           (g_bms_page s).

Definition set_masks (d1 d2 : Z) (s : state) : state :=
  mk_state (g_cell s) (g_temps s) (g_highest_voltage_cell_index s)
           (g_lowest_voltage_cell_index s) d1 d2 (g_bms_page s).

Definition set_page (p : bms_page_t) (s : state) : state :=
  mk_state (g_cell s) (g_temps s) (g_highest_voltage_cell_index s)
           (g_lowest_voltage_cell_index s) (g_discharge1 s) (g_discharge2 s) p.

(** The slots the prototype populates: 0..3 (Lower) and 12..15 (Upper),
    in the order every loop of main.c visits them. *)
Definition lower_slots : list nat := seq 0 4.
Definition upper_slots : list nat := seq 12 4.
Definition scan_order : list nat := lower_slots ++ upper_slots.

Section Firmware.
Context {h : main_h}.

(** ** init_cells *)

Definition init_cell (c : cell_t) : cell_t :=
  mk_cell 0 (average_voltage c) (samples c) 0 (discharge c) 0 0 0.

Definition init_cells (s : state) : state :=
  let cells :=
    foldl (fun cs i => <[i := init_cell (cell_at cs i)]> cs)
          (g_cell s) (seq 0 N_CELLS) in
  let cells := <[0%nat := set_discharge 0x00 (cell_at cells 0)]> cells in
  let cells := <[1%nat := set_discharge 0x02 (cell_at cells 1)]> cells in
  let cells := <[2%nat := set_discharge 0x04 (cell_at cells 2)]> cells in
  let cells := <[3%nat := set_discharge 0x08 (cell_at cells 3)]> cells in
  mk_state cells (g_temps s) 0 0 (g_discharge1 s) (g_discharge2 s)
           (g_bms_page s).

(** ** get_lowest_voltage_cell_index *)

(** One turn of either loop: [if (g_cell[i].average_voltage <=
    g_cell[lowest].average_voltage) lowest = i;] *)
Definition lowest_step (cells : list cell_t) (lowest i : nat) : nat :=
  if avg cells i <=? avg cells lowest then i else lowest.

Definition get_lowest_voltage_cell_index (cells : list cell_t) : nat :=
  let lowest := 0%nat in
  let lowest := foldl (lowest_step cells) lowest lower_slots in
  let lowest := foldl (lowest_step cells) lowest upper_slots in
  lowest.

(** ** The moving-average filter (first loop of print_cell_voltages) *)

(** One turn of the inner loop: [sum += samples[j]; samples[j] =
    samples[j+1];] with [sum] an [unsigned int32]. *)
Definition shift_step (acc : Z * list Z) (j : nat) : Z * list Z :=
  (wrap32 (acc.1 + rd acc.2 j), <[j := rd acc.2 (S j)]> acc.2).

(** The body of the outer loop for one cell. *)
Definition update_cell (c : cell_t) : cell_t :=
  let acc := foldl shift_step (0, samples c) (seq 0 (N_SAMPLES - 1)) in
  let sum := wrap32 (acc.1 + voltage c) in
  let smp := <[(N_SAMPLES - 1)%nat := voltage c]> acc.2 in
  set_filter smp (wrap16 (sum / Z.of_nat N_SAMPLES)) c.

Definition update_cells (cells : list cell_t) : list cell_t :=
  foldl (fun cs i => <[i := update_cell (cell_at cs i)]> cs)
        cells (seq 0 N_CELLS).

Definition print_cell_voltages (s : state) : state * list event :=
  let cells := update_cells (g_cell s) in
  (set_cells cells s,
   [ev_printf (map (avg cells) lower_slots);
    ev_printf (map (avg cells) upper_slots)]).

(** ** print_discharge_bits *)

Definition bits16 (d : Z) : list Z :=
  map (fun i => if Z.testbit d (Z.of_nat i) then 1 else 0) (seq 0 16).

Definition print_discharge_bits (s : state) : list event :=
  [ev_printf (bits16 (g_discharge1 s)); ev_printf (bits16 (g_discharge2 s))].

(** ** ltc6804_read_cell_voltages *)

(** Modelled from the spec: the LTC6804 driver (ltc6804.c) is not part of
    the sources at hand.  The spec says of it: the external collaborator
    fills [raw_voltage] for all populated slots and always succeeds.  The
    readings of one acquisition are the function [adc], slot by slot;
    nothing but the [voltage] field of a populated slot changes. *)
Definition ltc6804_read_cell_voltages (adc : nat -> Z)
    (cells : list cell_t) : list cell_t :=
  foldl (fun cs i => <[i := set_voltage (adc i) (cell_at cs i)]> cs)
        cells scan_order.

(** ** balance *)

(** [(g_cell[i].average_voltage - g_cell[min_idx].average_voltage) >
    BALANCE_THRESHOLD]: the difference of two [unsigned int16] wraps. *)
Definition over_threshold (cells : list cell_t) (i min_idx : nat) : bool :=
  BALANCE_THRESHOLD <? wrap16 (avg cells i - avg cells min_idx).

(** [d |= 1 << k] when [cond] holds, [d &= ~(1 << k)] otherwise.  On [Z]
    both are exact for a mask of any width: they change bit [k] alone. *)
Definition assign_bit (cond : bool) (k : nat) (d : Z) : Z :=
  if cond then Z.lor d (bit k) else Z.land d (Z.lnot (bit k)).

Definition balance_lower (cells : list cell_t) (min_idx : nat) (d : Z) : Z :=
  foldl (fun d i => assign_bit (over_threshold cells i min_idx) i d)
        d lower_slots.

Definition balance_upper (cells : list cell_t) (min_idx : nat) (d : Z) : Z :=
  foldl (fun d i => assign_bit (over_threshold cells i min_idx) (i - 12) d)
        d upper_slots.

Definition balance (adc : nat -> Z) (s : state) : state * list event :=
  let cells := ltc6804_read_cell_voltages adc (g_cell s) in
  let min_idx := get_lowest_voltage_cell_index cells in
  let d1 := balance_lower cells min_idx (g_discharge1 s) in
  let d2 := balance_upper cells min_idx (g_discharge2 s) in
  (set_masks d1 d2 (set_cells cells s),
   [ev_read_cell_voltages;
    ev_output_low CSBI1; ev_write_config d1; ev_output_high CSBI1;
    ev_output_low CSBI2; ev_write_config d1; ev_output_high CSBI2]).

(** ** update_bms_page *)

Definition update_bms_page (s : state) : state :=
  let p := g_bms_page s in
  let vs :=
    foldl (fun vs i => <[i := to_int16 (avg (g_cell s) i)]> vs)
          (voltages p) (seq 0 (N_CELLS `min` N_CELLS_FINAL)) in
  let ts :=
    foldl (fun ts i => <[i := to_int8 (rd (g_temps s) i)]> ts)
          (temps p) (seq 0 N_ADC_CHANNELS) in
  let dis :=
    Z.lor (Z.shiftl (Z.land (g_discharge2 s) 0xF) 4)
          (Z.land (g_discharge1 s) 0xF) in
  set_page (mk_page vs ts 0 (to_int32 dis)) s.

(** ** One turn of the loop of main *)

(** The loop body acquires twice, once itself and once inside [balance]:
    [adc1] and [adc2] are the readings of the two acquisitions. *)
Definition main_loop_body (adc1 adc2 : nat -> Z) (s : state)
    : state * list event :=
  let s1 := set_cells (ltc6804_read_cell_voltages adc1 (g_cell s)) s in
  let r2 := balance adc2 s1 in
  let r3 := print_cell_voltages r2.1 in
  let t4 := print_discharge_bits r3.1 in
  let s5 := update_bms_page r3.1 in
  (s5, [ev_read_cell_voltages] ++ r2.2 ++ r3.2 ++ t4 ++ [ev_delay_ms 200]).

End Firmware.

(** ** can_telem.h: the X-macro tables *)

(** The page arrays that [EXPAND_AS_TELEM_PAGE_DECLARATIONS] declares. *)
Inductive page_t :=
| g_bps_voltage_page
| g_bps_temperature_page
| g_bps_cur_bal_stat_page.

Definition page_eqb (p q : page_t) : bool :=
  match p, q with
  | g_bps_voltage_page, g_bps_voltage_page
  | g_bps_temperature_page, g_bps_temperature_page
  | g_bps_cur_bal_stat_page, g_bps_cur_bal_stat_page => true
  | _, _ => false
  end.

Inductive can_name :=
| CAN_BPS_VOLTAGE1 | CAN_BPS_VOLTAGE2 | CAN_BPS_VOLTAGE3 | CAN_BPS_VOLTAGE4
| CAN_BPS_TEMPERATURE1 | CAN_BPS_TEMPERATURE2 | CAN_BPS_TEMPERATURE3
| CAN_BPS_CUR_BAL_STAT.

Inductive telem_name :=
| TELEM_BPS_VOLTAGE | TELEM_BPS_TEMPERATURE | TELEM_BPS_CUR_BAL_STAT.

Inductive misc_name :=
| COMMAND_PMS_DISCONNECT_ARRAY | RESPONSE_PMS_DISCONNECT_ARRAY
| COMMAND_ENABLE_BALANCING | COMMAND_EVDC_DRIVE | COMMAND_BPS_TRIP_SIGNAL
| RESPONSE_MPPT1 | RESPONSE_MPPT2 | RESPONSE_MPPT3 | RESPONSE_MPPT4.

(** An [ENTRY(a, b, c, d)] of [CAN_ID_TABLE]: the data address [d] is a
    page array plus a byte offset. *)
Record can_entry := mk_can {
  can_packet : can_name;
  can_id : Z;
  can_len : Z;
  can_page : page_t;
  can_offset : Z
}.

Record telem_entry := mk_telem {
  telem_packet : telem_name;
  telem_id : Z;
  telem_len : Z;
  telem_page : page_t
}.

Record misc_entry := mk_misc {
  misc_packet : misc_name;
  misc_id : Z
}.

Definition CAN_ID_TABLE : list can_entry :=
  [ mk_can CAN_BPS_VOLTAGE1     0x600 8 g_bps_voltage_page 0;
    mk_can CAN_BPS_VOLTAGE2     0x601 8 g_bps_voltage_page 8;
    mk_can CAN_BPS_VOLTAGE3     0x602 8 g_bps_voltage_page 16;
    mk_can CAN_BPS_VOLTAGE4     0x603 6 g_bps_voltage_page 24;
    mk_can CAN_BPS_TEMPERATURE1 0x608 8 g_bps_temperature_page 0;
    mk_can CAN_BPS_TEMPERATURE2 0x609 8 g_bps_temperature_page 8;
    mk_can CAN_BPS_TEMPERATURE3 0x60A 8 g_bps_temperature_page 16;
    mk_can CAN_BPS_CUR_BAL_STAT 0x60B 8 g_bps_cur_bal_stat_page 0 ].

Definition N_CAN_ID : nat := 8.

Definition TELEM_ID_TABLE : list telem_entry :=
  [ mk_telem TELEM_BPS_VOLTAGE      0x0B 30 g_bps_voltage_page;
    mk_telem TELEM_BPS_TEMPERATURE  0x0D 24 g_bps_temperature_page;
    mk_telem TELEM_BPS_CUR_BAL_STAT 0x11  8 g_bps_cur_bal_stat_page ].

Definition N_TELEM_ID : nat := 3.

Definition CAN_MISC_TABLE : list misc_entry :=
  [ mk_misc COMMAND_PMS_DISCONNECT_ARRAY  0x777;
    mk_misc RESPONSE_PMS_DISCONNECT_ARRAY 0x778;
    mk_misc COMMAND_ENABLE_BALANCING      0x888;
    mk_misc COMMAND_EVDC_DRIVE            0x501;
    mk_misc COMMAND_BPS_TRIP_SIGNAL       0x303;
    mk_misc RESPONSE_MPPT1                0x771;
    mk_misc RESPONSE_MPPT2                0x772;
    mk_misc RESPONSE_MPPT3                0x773;
    mk_misc RESPONSE_MPPT4                0x774 ].

Definition N_CAN_MISC : nat := 9.

(** [TELEM_ID_TABLE(EXPAND_AS_TELEM_PAGE_DECLARATIONS)] declares each page
    as [static int8 d[c]]: a page's capacity is the length of the
    telemetry entry that names it. *)
Definition page_capacity (p : page_t) : Z :=
  match find (fun e => page_eqb (telem_page e) p) TELEM_ID_TABLE with
  | Some e => telem_len e
  | None => 0
  end.

(** The length an identifier stands for in a sub-table (the pair
    [a##_ID], [a##_LEN] of the generated enums, read by identifier). *)
Definition can_len_of_id (id : Z) : option Z :=
  can_len <$> find (fun e => can_id e =? id) CAN_ID_TABLE.

Definition telem_len_of_id (id : Z) : option Z :=
  telem_len <$> find (fun e => telem_id e =? id) TELEM_ID_TABLE.

(** A CAN packet lies inside the page array its data address points in. *)
Definition can_entry_fits (e : can_entry) : bool :=
  (0 <=? can_offset e) && (can_offset e + can_len e <=? page_capacity (can_page e)).

(** ** Read-outs used by the statements *)

(** The discharge decision the masks hold for slot [i]: bit [i] of
    [g_discharge1] for a Lower slot, bit [i - 12] of [g_discharge2] for an
    Upper slot. *)
Definition decision (s : state) (i : nat) : bool :=
  if (i <? 12)%nat then Z.testbit (g_discharge1 s) (Z.of_nat i)
  else Z.testbit (g_discharge2 s) (Z.of_nat (i - 12)).

(** The same cells with other values in their [discharge] fields. *)
Definition set_discharges (ds : nat -> Z) (cells : list cell_t) : list cell_t :=
  imap (fun i c => set_discharge (ds i) c) cells.

(** The masks of the configuration writes of a trace, in order. *)
Definition config_writes (t : list event) : list Z :=
  omap (fun e => match e with ev_write_config m => Some m | _ => None end) t.

(** The averages of the populated slots are [unsigned int16] values. *)
Definition u16_averages (cells : list cell_t) : Prop :=
  Forall (fun i => 0 <= avg cells i < 2 ^ 16) scan_order.

(** Two cell arrays with the same averages in the populated slots. *)
Definition same_averages (cells cells' : list cell_t) : Prop :=
  Forall (fun i => avg cells i = avg cells' i) scan_order.

(** Sum and floor mean of a window of samples. *)
Definition total (w : list Z) : Z := foldr Z.add 0 w.

Definition window_mean (w : list Z) : Z := total w / Z.of_nat (length w).

(** The samples of a history and the raw reading are [unsigned int16]
    values. *)
Definition u16_cell (c : cell_t) : Prop :=
  Forall (fun x => 0 <= x < 2 ^ 16) (samples c) /\ 0 <= voltage c < 2 ^ 16.

(** ** A configuration to run the code on

    The values of the worked scenario: sixteen slots, a history of depth
    four, a threshold of fifty. *)
Definition scenario_h : main_h :=
  {| N_CELLS := 16; N_SAMPLES := 4; N_CELLS_FINAL := 8;
     N_ADC_CHANNELS := 8; BALANCE_THRESHOLD := 50 |}.

(** Static storage at reset: sixteen zero cells, zero masks, a zero page. *)
Definition reset_state : state :=
  mk_state (replicate 16 (zero_cell 4)) (replicate 8 0) 0 0 0 0
           (mk_page (replicate 8 0) (replicate 8 0) 0 0).

(** Cells whose averages are given slot by slot. *)
Definition cells_of_averages (avgs : list Z) : list cell_t :=
  map (fun a => set_filter (replicate 4 a) a (zero_cell 4)) avgs.

Definition state_of_averages (avgs : list Z) : state :=
  set_cells (cells_of_averages avgs) reset_state.

(** Lower averages 100, 100, 200, 90 (the worked scenario); the Upper
    group level with the Lower reference in [level_pack], one Upper cell
    far below in [sagging_pack]. *)
Definition level_pack : state :=
  state_of_averages [100; 100; 200; 90; 0; 0; 0; 0; 0; 0; 0; 0; 90; 90; 90; 90].

Definition sagging_pack : state :=
  state_of_averages [100; 100; 200; 90; 0; 0; 0; 0; 0; 0; 0; 0; 10; 90; 90; 90].

(** Slot [i] averages [100 * (i + 1)]. *)
Definition ramp_pack : state :=
  state_of_averages (map (fun i => 100 * (Z.of_nat i + 1)) (seq 0 16)).

(** Readings: every slot at 400 but slot 2 at 800. *)
Definition uneven_adc (i : nat) : Z := if (i =? 2)%nat then 800 else 400.

Definition quiet_adc (i : nat) : Z := 0.

(** ** The rest of main.c *)

(** [g_cell[i].voltage] *)
Definition volt (cells : list cell_t) (i : nat) : Z :=
  voltage (cell_at cells i).

(** The timer interrupt owns the millisecond counter [g_ms] (an [int16])
    and the interrupt flag register [IFS0] (a 16-bit word). *)
Record timer_t := mk_timer {
  g_ms : Z;
  IFS0 : Z
}.

Section Rest.
Context {h : main_h}.

(** *** get_highest_voltage_cell_index *)

(** One turn of the loop: [if (g_cell[i].voltage >=
    g_cell[highest].voltage) highest = i;] *)
Definition highest_step (cells : list cell_t) (highest i : nat) : nat :=
  if volt cells i >=? volt cells highest then i else highest.

Definition get_highest_voltage_cell_index (cells : list cell_t) : nat :=
  foldl (highest_step cells) 0%nat (seq 0 N_CELLS).

(** *** isr_timer2 *)

(** [g_ms++; CLEAR_T2_FLAG;] with [CLEAR_T2_FLAG] the macro
    [IFS0 &= 0xFF7F].  The increment of the [int16] counter keeps the low
    sixteen bits, as the compiler does. *)
Definition isr_timer2 (t : timer_t) : timer_t :=
  mk_timer (to_int16 (g_ms t + 1)) (Z.land (IFS0 t) 0xFF7F).

(** *** The loop of main, run for as many turns as there are readings *)

Fixpoint main_loop (inputs : list ((nat -> Z) * (nat -> Z))) (s : state)
    : state * list event :=
  match inputs with
  | [] => (s, [])
  | adc :: rest =>
      let r := main_loop_body adc.1 adc.2 s in
      let r' := main_loop rest r.1 in
      (r'.1, r.2 ++ r'.2)
  end.

(** A cell acquired and filtered once: what a turn of the loop does to a
    populated cell whose reading is [v]. *)
Definition sample (v : Z) (c : cell_t) : cell_t :=
  update_cell (set_voltage v c).

(** The same over a run of readings, the first reading first. *)
Definition feed (vs : list Z) (c : cell_t) : cell_t :=
  foldl (fun c v => sample v c) c vs.

End Rest.

(** ** More read-outs *)

(** The number a line of binary digits stands for, least significant
    digit first (the order [print_discharge_bits] prints them in). *)
Definition of_bits (bs : list Z) : Z := foldr (fun b acc => b + 2 * acc) 0 bs.

(** Byte [b] of page [p] travels in CAN packet [e]. *)
Definition can_carries (e : can_entry) (p : page_t) (b : Z) : bool :=
  page_eqb (can_page e) p
  && (can_offset e <=? b) && (b <? can_offset e + can_len e).

(** The constants [init_cells] stores in the [discharge] fields of
    cells 0..3. *)
Definition discharge_constant (i : nat) : Z :=
  match i with
  | 0%nat => 0x00
  | 1%nat => 0x02
  | 2%nat => 0x04
  | _ => 0x08
  end.

(** The readings of an acquisition are [unsigned int16] values. *)
Definition u16_readings (adc : nat -> Z) : Prop :=
  forall i : nat, 0 <= adc i < 2 ^ 16.

(** Every history of the cell array has the depth of the filter. *)
Definition full_histories {h : main_h} (cells : list cell_t) : Prop :=
  Forall (fun c => length (samples c) = N_SAMPLES) cells.

(** Readings of the scenario: 3500 everywhere but 3600 at slot 2. *)
Definition steady_adc (i : nat) : Z := if (i =? 2)%nat then 3600 else 3500.

(** * Properties *)

(** ** Bits of the masks *)

Lemma testbit_bit (k : nat) (n : Z) :
  0 <= n -> Z.testbit (bit k) n = (n =? Z.of_nat k).
Proof.
  intros Hn. unfold bit. rewrite Z.shiftl_1_l.
  rewrite Z.pow2_bits_eqb by lia. apply Z.eqb_sym.
Qed.

Lemma testbit_assign_bit (cond : bool) (k : nat) (d n : Z) :
  0 <= n ->
  Z.testbit (assign_bit cond k d) n
  = if n =? Z.of_nat k then cond else Z.testbit d n.
Proof.
  intros Hn. unfold assign_bit. destruct cond.
  - rewrite Z.lor_spec, testbit_bit by lia.
    destruct (n =? Z.of_nat k); [apply orb_true_r | apply orb_false_r].
  - rewrite Z.land_spec, Z.lnot_spec, testbit_bit by lia.
    destruct (n =? Z.of_nat k); [apply andb_false_r | apply andb_true_r].
Qed.

Section Masks.
Context {h : main_h}.

(** A bit of the Lower mask after the first loop of [balance]: bits 0..3
    hold the comparisons of slots 0..3, every other bit is as it was. *)
Lemma testbit_balance_lower cells r d (n : Z) :
  0 <= n ->
  Z.testbit (balance_lower cells r d) n
  = if n <? 4 then over_threshold cells (Z.to_nat n) r else Z.testbit d n.
Proof.
  intros Hn. unfold balance_lower, lower_slots. cbn [seq foldl].
  rewrite !testbit_assign_bit by lia.
  destruct (Z.ltb_spec n 4) as [Hlt | Hge].
  - assert (n = 0 \/ n = 1 \/ n = 2 \/ n = 3) as Hc by lia.
    destruct Hc as [-> | [-> | [-> | ->]]]; reflexivity.
  - repeat match goal with
           | |- context [?a =? ?b] =>
               destruct (Z.eqb_spec a b); [lia |]
           end.
    reflexivity.
Qed.

(** The same for the Upper mask: bit [k] holds the comparison of slot
    [12 + k]. *)
Lemma testbit_balance_upper cells r d (n : Z) :
  0 <= n ->
  Z.testbit (balance_upper cells r d) n
  = if n <? 4 then over_threshold cells (12 + Z.to_nat n) r
    else Z.testbit d n.
Proof.
  intros Hn. unfold balance_upper, upper_slots. cbn [seq foldl Nat.sub].
  rewrite !testbit_assign_bit by lia.
  destruct (Z.ltb_spec n 4) as [Hlt | Hge].
  - assert (n = 0 \/ n = 1 \/ n = 2 \/ n = 3) as Hc by lia.
    destruct Hc as [-> | [-> | [-> | ->]]]; reflexivity.
  - repeat match goal with
           | |- context [?a =? ?b] =>
               destruct (Z.eqb_spec a b); [lia |]
           end.
    reflexivity.
Qed.

(** Running a loop of [balance] on its own result changes nothing. *)
Lemma balance_lower_idem cells r d :
  balance_lower cells r (balance_lower cells r d) = balance_lower cells r d.
Proof.
  apply Z.bits_inj'. intros n Hn.
  rewrite !testbit_balance_lower by assumption.
  destruct (n <? 4); reflexivity.
Qed.

Lemma balance_upper_idem cells r d :
  balance_upper cells r (balance_upper cells r d) = balance_upper cells r d.
Proof.
  apply Z.bits_inj'. intros n Hn.
  rewrite !testbit_balance_upper by assumption.
  destruct (n <? 4); reflexivity.
Qed.

(** A mask that fits in sixteen bits still does after a loop: writing the
    loops on [Z], with no wrap-around, loses nothing. *)
Lemma balance_lower_u16 cells r d :
  0 <= d < 2 ^ 16 -> 0 <= balance_lower cells r d < 2 ^ 16.
Proof.
  intros Hd.
  assert (balance_lower cells r d = balance_lower cells r d mod 2 ^ 16) as ->.
  { apply Z.bits_inj'. intros n Hn. rewrite Z.testbit_mod_pow2 by lia.
    destruct (Z.ltb_spec n 16) as [_ | Hge]; [reflexivity |].
    rewrite testbit_balance_lower by lia.
    destruct (Z.ltb_spec n 4); [lia |].
    rewrite <- (Z.mod_small d (2 ^ 16)) by lia.
    apply Z.mod_pow2_bits_high. lia. }
  apply Z.mod_pos_bound. lia.
Qed.

Lemma balance_upper_u16 cells r d :
  0 <= d < 2 ^ 16 -> 0 <= balance_upper cells r d < 2 ^ 16.
Proof.
  intros Hd.
  assert (balance_upper cells r d = balance_upper cells r d mod 2 ^ 16) as ->.
  { apply Z.bits_inj'. intros n Hn. rewrite Z.testbit_mod_pow2 by lia.
    destruct (Z.ltb_spec n 16) as [_ | Hge]; [reflexivity |].
    rewrite testbit_balance_upper by lia.
    destruct (Z.ltb_spec n 4); [lia |].
    rewrite <- (Z.mod_small d (2 ^ 16)) by lia.
    apply Z.mod_pow2_bits_high. lia. }
  apply Z.mod_pos_bound. lia.
Qed.

End Masks.

(** ** Loops that write an array slot by slot *)

(** A loop [for i in l: a[i] = g(i, a[i])] over distinct indices leaves in
    slot [j] the image of what was there when [j] is visited, and what
    was there otherwise. *)
Lemma foldl_insert_lookup {A} (g : nat -> A -> A) (dflt : A)
    (l : list nat) (cs : list A) (j : nat) :
  NoDup l ->
  foldl (fun cs i => <[i := g i (default dflt (cs !! i))]> cs) cs l !! j
  = if decide (j ∈ l) then g j <$> cs !! j else cs !! j.
Proof.
  intros Hnd. revert cs. induction Hnd as [| x l Hx Hnd IH]; intros cs.
  - cbn. destruct (decide (j ∈ [])) as [Hin | _]; [| reflexivity].
    inversion Hin.
  - cbn [foldl]. rewrite IH.
    destruct (decide (j = x)) as [-> | Hne].
    + destruct (decide (x ∈ l)) as [| _]; [contradiction |].
      destruct (decide (x ∈ x :: l)) as [_ | Hn];
        [| exfalso; apply Hn; left].
      destruct (cs !! x) as [c |] eqn:Hc.
      * cbn. apply list_lookup_insert_eq. eapply lookup_lt_Some; eassumption.
      * cbn. rewrite list_insert_ge; [assumption |].
        apply lookup_ge_None. assumption.
    + rewrite list_lookup_insert_ne by congruence.
      destruct (decide (j ∈ l)) as [Hin | Hnin];
        destruct (decide (j ∈ x :: l)) as [Hin' | Hnin']; try reflexivity.
      * exfalso. apply Hnin'. right. assumption.
      * exfalso. inversion Hin'; subst; contradiction.
Qed.

Lemma foldl_insert_length {A} (f : list A -> nat -> A)
    (l : list nat) (cs : list A) :
  length (foldl (fun cs i => <[i := f cs i]> cs) cs l) = length cs.
Proof.
  revert cs. induction l as [| x l IH]; intros cs; [reflexivity |].
  cbn [foldl]. rewrite IH. apply length_insert.
Qed.

Lemma NoDup_scan_order : NoDup scan_order.
Proof. apply NoDup_ListNoDup. vm_compute. repeat constructor; cbn; lia. Qed.

(** ** Acquisition leaves the averages alone *)

Lemma lookup_read_cell_voltages adc cells (j : nat) :
  ltc6804_read_cell_voltages adc cells !! j
  = if decide (j ∈ scan_order) then set_voltage (adc j) <$> cells !! j
    else cells !! j.
Proof.
  unfold ltc6804_read_cell_voltages, cell_at.
  apply (foldl_insert_lookup (fun i c => set_voltage (adc i) c)).
  apply NoDup_scan_order.
Qed.

Lemma avg_read_cell_voltages adc cells (j : nat) :
  avg (ltc6804_read_cell_voltages adc cells) j = avg cells j.
Proof.
  unfold avg, cell_at. rewrite lookup_read_cell_voltages.
  destruct (decide (j ∈ scan_order)); [| reflexivity].
  destruct (cells !! j); reflexivity.
Qed.

Lemma length_read_cell_voltages adc cells :
  length (ltc6804_read_cell_voltages adc cells) = length cells.
Proof.
  unfold ltc6804_read_cell_voltages.
  apply (foldl_insert_length (fun cs i => set_voltage (adc i) (cell_at cs i))).
Qed.

Lemma avg_set_discharges ds cells (j : nat) :
  avg (set_discharges ds cells) j = avg cells j.
Proof.
  unfold avg, cell_at, set_discharges. rewrite list_lookup_imap.
  destruct (cells !! j); reflexivity.
Qed.

(** ** What the decision reads *)

Lemma same_averages_at cells cells' (i : nat) :
  same_averages cells cells' -> i ∈ scan_order ->
  avg cells i = avg cells' i.
Proof.
  unfold same_averages. rewrite Forall_forall. intros H Hi. apply H, Hi.
Qed.

(** ** The scan for the lowest cell *)

Lemma elem_of_scan_order (i : nat) :
  i ∈ scan_order <-> (i < 4 \/ 12 <= i < 16)%nat.
Proof.
  unfold scan_order, lower_slots, upper_slots.
  rewrite elem_of_app, !elem_of_seq. lia.
Qed.

(** [scan_order] lists the slots by increasing index: a slot is met later
    exactly when its index is larger. *)
Lemma lookup_scan_order (k j : nat) :
  scan_order !! k = Some j <->
  ((k < 4)%nat /\ j = k) \/ ((4 <= k < 8)%nat /\ j = (k + 8)%nat).
Proof.
  unfold scan_order, lower_slots, upper_slots.
  rewrite lookup_app_Some, !lookup_seq, length_seq. lia.
Qed.

Lemma scan_order_increasing (k k' j j' : nat) :
  scan_order !! k = Some j -> scan_order !! k' = Some j' ->
  (j <= j')%nat -> (k <= k')%nat.
Proof. rewrite !lookup_scan_order. lia. Qed.

Lemma sorted_lower_slots : StronglySorted lt lower_slots.
Proof. unfold lower_slots. cbn [seq]. repeat constructor; lia. Qed.

Lemma sorted_upper_slots : StronglySorted lt upper_slots.
Proof. unfold upper_slots. cbn [seq]. repeat constructor; lia. Qed.

Lemma lower_slots_above_0 : Forall (le 0) lower_slots.
Proof. apply Forall_forall. intros i _. lia. Qed.

Lemma upper_slots_above (a : nat) : (a < 4)%nat -> Forall (le a) upper_slots.
Proof.
  intros Ha. apply Forall_forall. intros i Hi.
  unfold upper_slots in Hi. apply elem_of_seq in Hi. lia.
Qed.

Section Scan.
Context {h : main_h}.
Variable cells : list cell_t.

(** One loop of the scan, from a running [lowest] equal to [a], over
    slots listed by increasing index, none below [a]. *)
Lemma foldl_lowest_step_spec (l : list nat) (a : nat) :
  StronglySorted lt l -> Forall (le a) l ->
  exists r, r = foldl (lowest_step cells) a l /\
  (r = a \/ r ∈ l) /\ (a <= r)%nat /\ avg cells r <= avg cells a /\
  forall j, j ∈ l ->
    avg cells r <= avg cells j /\ (avg cells j <= avg cells r -> (j <= r)%nat).
Proof.
  intros Hs. revert a.
  induction Hs as [| x l Hs IH Hx]; intros a Ha; cbn [foldl].
  - exists a. split; [reflexivity |].
    split; [left; reflexivity |]. split; [lia |]. split; [lia |].
    intros j Hj. inversion Hj.
  - apply Forall_cons in Ha as [Hax Ha].
    assert (Forall (le (lowest_step cells a x)) l) as Hle.
    { unfold lowest_step. destruct (avg cells x <=? avg cells a).
      - eapply Forall_impl; [exact Hx |]. intros; cbn in *; lia.
      - exact Ha. }
    destruct (IH _ Hle) as (r & Er & Hin & Hge & Havg & Hall).
    exists r. split; [exact Er |]. clear Er.
    unfold lowest_step in Hin, Hge, Havg.
    destruct (Z.leb_spec (avg cells x) (avg cells a)) as [Hc | Hc].
    + split; [right; destruct Hin as [-> | Hin]; [left | right; exact Hin] |].
      split; [lia |]. split; [lia |].
      intros j Hj. apply elem_of_cons in Hj as [-> | Hj];
        [split; lia | apply Hall, Hj].
    + split.
      { destruct Hin as [-> | Hin];
          [left; reflexivity | right; right; exact Hin]. }
      split; [lia |]. split; [lia |].
      intros j Hj. apply elem_of_cons in Hj as [-> | Hj];
        [split; lia | apply Hall, Hj].
Qed.

Lemma lower_scan_below_4 :
  (foldl (lowest_step cells) 0%nat lower_slots < 4)%nat.
Proof.
  destruct (foldl_lowest_step_spec lower_slots 0 sorted_lower_slots
              lower_slots_above_0) as (r & <- & H1 & _).
  destruct H1 as [-> | H1]; [lia |].
  unfold lower_slots in H1. apply elem_of_seq in H1. lia.
Qed.

Lemma get_lowest_in_scan_order :
  get_lowest_voltage_cell_index cells ∈ scan_order.
Proof.
  unfold get_lowest_voltage_cell_index.
  pose proof lower_scan_below_4 as Hr1.
  destruct (foldl_lowest_step_spec upper_slots _ sorted_upper_slots
              (upper_slots_above _ Hr1)) as (r & <- & H2 & _).
  apply elem_of_scan_order.
  destruct H2 as [-> | H2]; [lia |].
  unfold upper_slots in H2. apply elem_of_seq in H2. lia.
Qed.

(** The scan returns a slot whose average no scanned slot undercuts, and
    of the slots with that average the one of largest index. *)
Lemma get_lowest_minimal (j : nat) :
  j ∈ scan_order ->
  avg cells (get_lowest_voltage_cell_index cells) <= avg cells j /\
  (avg cells j <= avg cells (get_lowest_voltage_cell_index cells) ->
   (j <= get_lowest_voltage_cell_index cells)%nat).
Proof.
  intros Hj. unfold get_lowest_voltage_cell_index.
  pose proof lower_scan_below_4 as Hr1.
  destruct (foldl_lowest_step_spec lower_slots 0 sorted_lower_slots
              lower_slots_above_0) as (r1 & Er1 & _ & Hge1 & Ha1 & Hall1).
  rewrite <- Er1 in *. clear Er1.
  destruct (foldl_lowest_step_spec upper_slots r1 sorted_upper_slots
              (upper_slots_above _ Hr1)) as (r & <- & _ & Hge2 & Ha2 & Hall2).
  unfold scan_order in Hj. apply elem_of_app in Hj as [Hj | Hj].
  - destruct (Hall1 j Hj) as [Hm Ht]. split; [lia |].
    intros Hle. assert (j <= r1)%nat by (apply Ht; lia). lia.
  - apply Hall2, Hj.
Qed.

End Scan.

Section Reads.
Context {h : main_h}.

Lemma foldl_lowest_step_ext cells cells' (l : list nat) (a : nat) :
  (forall i, i = a \/ i ∈ l -> avg cells i = avg cells' i) ->
  foldl (lowest_step cells) a l = foldl (lowest_step cells') a l.
Proof.
  revert a. induction l as [| x l IH]; intros a Heq; [reflexivity |].
  cbn [foldl].
  assert (lowest_step cells a x = lowest_step cells' a x) as ->.
  { unfold lowest_step.
    rewrite (Heq a), (Heq x); [reflexivity | right; left | left; reflexivity]. }
  apply IH. intros i [-> | Hi].
  - unfold lowest_step. destruct (avg cells' x <=? avg cells' a).
    + apply Heq. right. left.
    + apply Heq. left. reflexivity.
  - apply Heq. right. right. exact Hi.
Qed.

Lemma get_lowest_ext cells cells' :
  same_averages cells cells' ->
  get_lowest_voltage_cell_index cells = get_lowest_voltage_cell_index cells'.
Proof.
  intros Hs.
  pose proof (get_lowest_in_scan_order cells) as Hin.
  unfold get_lowest_voltage_cell_index in *.
  assert (foldl (lowest_step cells) 0%nat lower_slots
          = foldl (lowest_step cells') 0%nat lower_slots) as E1.
  { apply foldl_lowest_step_ext. intros i Hi.
    apply same_averages_at; [exact Hs |]. apply elem_of_scan_order.
    destruct Hi as [-> | Hi]; [lia |].
    unfold lower_slots in Hi. apply elem_of_seq in Hi. lia. }
  rewrite <- E1. apply foldl_lowest_step_ext. intros i Hi.
  apply same_averages_at; [exact Hs |]. apply elem_of_scan_order.
  destruct Hi as [-> | Hi].
  - pose proof (lower_scan_below_4 cells). lia.
  - unfold upper_slots in Hi. apply elem_of_seq in Hi. lia.
Qed.

Lemma over_threshold_ext cells cells' (i r : nat) :
  same_averages cells cells' -> i ∈ scan_order -> r ∈ scan_order ->
  over_threshold cells i r = over_threshold cells' i r.
Proof.
  intros Hs Hi Hr. unfold over_threshold.
  rewrite (same_averages_at _ _ i Hs Hi), (same_averages_at _ _ r Hs Hr).
  reflexivity.
Qed.

Lemma balance_lower_ext cells cells' (r : nat) (d : Z) :
  same_averages cells cells' -> r ∈ scan_order ->
  balance_lower cells r d = balance_lower cells' r d.
Proof.
  intros Hs Hr. unfold balance_lower, lower_slots. cbn [seq foldl].
  rewrite !(over_threshold_ext cells cells' _ r Hs);
    try exact Hr; try (apply elem_of_scan_order; lia).
  reflexivity.
Qed.

Lemma balance_upper_ext cells cells' (r : nat) (d : Z) :
  same_averages cells cells' -> r ∈ scan_order ->
  balance_upper cells r d = balance_upper cells' r d.
Proof.
  intros Hs Hr. unfold balance_upper, upper_slots. cbn [seq foldl].
  rewrite !(over_threshold_ext cells cells' _ r Hs);
    try exact Hr; try (apply elem_of_scan_order; lia).
  reflexivity.
Qed.

Lemma same_averages_read adc cells :
  same_averages (ltc6804_read_cell_voltages adc cells) cells.
Proof.
  unfold same_averages. apply Forall_forall. intros i _.
  apply avg_read_cell_voltages.
Qed.

Lemma same_averages_set_discharges ds cells :
  same_averages (set_discharges ds cells) cells.
Proof.
  unfold same_averages. apply Forall_forall. intros i _.
  apply avg_set_discharges.
Qed.

Lemma same_averages_sym cells cells' :
  same_averages cells cells' -> same_averages cells' cells.
Proof.
  unfold same_averages. rewrite !Forall_forall.
  intros H i Hi. symmetry. apply H, Hi.
Qed.

Lemma same_averages_trans c1 c2 c3 :
  same_averages c1 c2 -> same_averages c2 c3 -> same_averages c1 c3.
Proof.
  unfold same_averages. rewrite !Forall_forall.
  intros H1 H2 i Hi. rewrite (H1 i Hi). apply H2, Hi.
Qed.

Lemma balance_discharge1 adc (s : state) :
  g_discharge1 (balance adc s).1
  = balance_lower (ltc6804_read_cell_voltages adc (g_cell s))
      (get_lowest_voltage_cell_index
         (ltc6804_read_cell_voltages adc (g_cell s)))
      (g_discharge1 s).
Proof. reflexivity. Qed.

Lemma balance_discharge2 adc (s : state) :
  g_discharge2 (balance adc s).1
  = balance_upper (ltc6804_read_cell_voltages adc (g_cell s))
      (get_lowest_voltage_cell_index
         (ltc6804_read_cell_voltages adc (g_cell s)))
      (g_discharge2 s).
Proof. reflexivity. Qed.

Lemma balance_cells adc (s : state) :
  g_cell (balance adc s).1 = ltc6804_read_cell_voltages adc (g_cell s).
Proof. reflexivity. Qed.

(** The masks [balance] leaves are a function of the averages of the
    populated slots and of the masks it starts from. *)
Lemma balance_masks_ext adc adc' (s s' : state) :
  same_averages (g_cell s) (g_cell s') ->
  g_discharge1 s = g_discharge1 s' -> g_discharge2 s = g_discharge2 s' ->
  g_discharge1 (balance adc s).1 = g_discharge1 (balance adc' s').1 /\
  g_discharge2 (balance adc s).1 = g_discharge2 (balance adc' s').1.
Proof.
  intros Hs E1 E2. rewrite !balance_discharge1, !balance_discharge2.
  assert (same_averages (ltc6804_read_cell_voltages adc (g_cell s))
                        (ltc6804_read_cell_voltages adc' (g_cell s'))) as Hr.
  { eapply same_averages_trans; [apply same_averages_read |].
    eapply same_averages_trans; [exact Hs |].
    apply same_averages_sym, same_averages_read. }
  rewrite <- (get_lowest_ext _ _ Hr), E1, E2.
  split.
  - apply balance_lower_ext; [exact Hr | apply get_lowest_in_scan_order].
  - apply balance_upper_ext; [exact Hr | apply get_lowest_in_scan_order].
Qed.

End Reads.

(** ** The decisions of balance *)

Section Decisions.
Context {h : main_h}.

(** After [balance] the masks hold, for every populated slot, the
    comparison of its average with the average of the scanned minimum. *)
Lemma decision_balance adc (s : state) (i : nat) :
  i ∈ scan_order ->
  decision (balance adc s).1 i
  = over_threshold (g_cell s) i (get_lowest_voltage_cell_index (g_cell s)).
Proof.
  intros Hi. unfold decision.
  rewrite balance_discharge1, balance_discharge2.
  pose proof (same_averages_read adc (g_cell s)) as Hs.
  rewrite (get_lowest_ext _ _ Hs).
  pose proof (get_lowest_in_scan_order (g_cell s)) as Hr.
  apply elem_of_scan_order in Hi.
  destruct (Nat.ltb_spec i 12) as [Hlt | Hge].
  - rewrite testbit_balance_lower by lia.
    destruct (Z.ltb_spec (Z.of_nat i) 4) as [_ | ?]; [| lia].
    rewrite Nat2Z.id.
    apply over_threshold_ext; [exact Hs | apply elem_of_scan_order; lia | exact Hr].
  - rewrite testbit_balance_upper by lia.
    destruct (Z.ltb_spec (Z.of_nat (i - 12)) 4) as [_ | ?]; [| lia].
    rewrite Nat2Z.id. replace (12 + (i - 12))%nat with i by lia.
    apply over_threshold_ext; [exact Hs | apply elem_of_scan_order; lia | exact Hr].
Qed.

(** Against the scanned minimum the [unsigned int16] difference never
    wraps: the comparison is the one of the integers. *)
Lemma over_threshold_lowest cells (i : nat) :
  u16_averages cells -> i ∈ scan_order ->
  over_threshold cells i (get_lowest_voltage_cell_index cells) = true
  <-> avg cells i - avg cells (get_lowest_voltage_cell_index cells)
      > BALANCE_THRESHOLD.
Proof.
  intros Hu Hi. unfold u16_averages in Hu. rewrite Forall_forall in Hu.
  pose proof (Hu i Hi) as Hbi.
  pose proof (Hu _ (get_lowest_in_scan_order cells)) as Hbr.
  destruct (get_lowest_minimal cells i Hi) as [Hmin _].
  unfold over_threshold, wrap16.
  rewrite Z.mod_small by lia. rewrite Z.ltb_lt. lia.
Qed.

End Decisions.

(** ** Theorems of the claims *)

Section Claims.
Context {h : main_h}.

(** C6: [get_lowest_voltage_cell_index] returns a scanned slot whose
    [average_voltage] is at most that of every slot it scans, and among
    the scanned slots with that same average it is the one met last in
    scan order (position [kr] of [scan_order], no tied slot at a later
    position). *)
Theorem lowest_cell_is_last_minimum (cells : list cell_t) :
  exists kr : nat,
    scan_order !! kr = Some (get_lowest_voltage_cell_index cells) /\
    (forall j, j ∈ scan_order ->
       avg cells (get_lowest_voltage_cell_index cells) <= avg cells j) /\
    (forall k j, scan_order !! k = Some j ->
       avg cells j = avg cells (get_lowest_voltage_cell_index cells) ->
       (k <= kr)%nat).
Proof.
  pose proof (get_lowest_in_scan_order cells) as Hin.
  apply list_elem_of_lookup in Hin as [kr Hkr].
  exists kr. split; [exact Hkr |]. split.
  - intros j Hj. apply get_lowest_minimal, Hj.
  - intros k j Hk Heq.
    assert (j ∈ scan_order) as Hj by (eapply list_elem_of_lookup_2; exact Hk).
    destruct (get_lowest_minimal cells j Hj) as [_ Hlast].
    eapply scan_order_increasing; [exact Hk | exact Hkr |].
    apply Hlast. lia.
Qed.

(** C7: with [r] the selected reference, the discharge decision [balance]
    takes for a populated cell [i] is true exactly when
    [average_voltage i - average_voltage r > BALANCE_THRESHOLD] (the
    difference of the integers: it never wraps), and for a threshold that
    is not negative the decision for the reference itself is false. *)
Theorem decision_iff_above_reference adc (s : state) (i : nat) :
  u16_averages (g_cell s) -> i ∈ scan_order ->
  (decision (balance adc s).1 i = true <->
   avg (g_cell s) i - avg (g_cell s) (get_lowest_voltage_cell_index (g_cell s))
   > BALANCE_THRESHOLD) /\
  (0 <= BALANCE_THRESHOLD ->
   decision (balance adc s).1 (get_lowest_voltage_cell_index (g_cell s))
   = false).
Proof.
  intros Hu Hi. split.
  - rewrite decision_balance by exact Hi.
    apply over_threshold_lowest; assumption.
  - intros HT. apply not_true_is_false.
    rewrite decision_balance by apply get_lowest_in_scan_order.
    rewrite over_threshold_lowest;
      [lia | exact Hu | apply get_lowest_in_scan_order].
Qed.

(** C9: running [balance] a second time, the averages unchanged, leaves
    both masks as the first run left them, whatever the masks were before
    the first run and whatever the two acquisitions read. *)
Theorem balance_twice_same_masks adc adc' (s : state) :
  g_discharge1 (balance adc' (balance adc s).1).1
  = g_discharge1 (balance adc s).1 /\
  g_discharge2 (balance adc' (balance adc s).1).1
  = g_discharge2 (balance adc s).1.
Proof.
  rewrite (balance_discharge1 adc'), (balance_discharge2 adc').
  rewrite balance_cells, balance_discharge1, balance_discharge2.
  set (cells := ltc6804_read_cell_voltages adc (g_cell s)).
  pose proof (same_averages_read adc' cells) as Hs.
  rewrite (get_lowest_ext _ _ Hs).
  pose proof (get_lowest_in_scan_order cells) as Hr.
  rewrite (balance_lower_ext _ _ _ _ Hs Hr), (balance_upper_ext _ _ _ _ Hs Hr).
  split; [apply balance_lower_idem | apply balance_upper_idem].
Qed.

(** C10: [balance] never reads the [discharge] field of a cell.  Whatever
    values [ds] the fields hold, the masks are those of the run on the
    original cells, and the bit of a cell is fixed by its index: bit [k]
    of [g_discharge1] is the comparison of Lower cell [k], bit [k] of
    [g_discharge2] the comparison of Upper cell [12 + k]. *)
Theorem masks_ignore_discharge_fields adc (ds : nat -> Z) (s : state) :
  g_discharge1 (balance adc (set_cells (set_discharges ds (g_cell s)) s)).1
  = g_discharge1 (balance adc s).1 /\
  g_discharge2 (balance adc (set_cells (set_discharges ds (g_cell s)) s)).1
  = g_discharge2 (balance adc s).1 /\
  forall k : nat, (k < 4)%nat ->
    Z.testbit (g_discharge1 (balance adc s).1) (Z.of_nat k)
    = over_threshold (g_cell s) k (get_lowest_voltage_cell_index (g_cell s)) /\
    Z.testbit (g_discharge2 (balance adc s).1) (Z.of_nat k)
    = over_threshold (g_cell s) (12 + k)
        (get_lowest_voltage_cell_index (g_cell s)).
Proof.
  destruct (balance_masks_ext adc adc
              (set_cells (set_discharges ds (g_cell s)) s) s) as [E1 E2];
    [apply same_averages_set_discharges | reflexivity | reflexivity |].
  split; [exact E1 |]. split; [exact E2 |].
  intros k Hk. split.
  - rewrite <- (decision_balance adc s k) by (apply elem_of_scan_order; lia).
    unfold decision. destruct (Nat.ltb_spec k 12); [reflexivity | lia].
  - rewrite <- (decision_balance adc s (12 + k))
      by (apply elem_of_scan_order; lia).
    unfold decision. destruct (Nat.ltb_spec (12 + k) 12); [lia |].
    replace (12 + k - 12)%nat with k by lia. reflexivity.
Qed.

(** C4: in the actuation step of [balance] the write made while CSBI2 is
    low carries the same value as the write made while CSBI1 is low, the
    Lower mask [g_discharge1]; the events of [balance] are the same
    whatever [g_discharge2] holds, and the two configuration writes of a
    whole turn of the main loop both carry [g_discharge1]. *)
Theorem second_write_repeats_lower_mask adc adc1 (d2 : Z) (s : state) :
  (balance adc s).2
  = [ev_read_cell_voltages;
     ev_output_low CSBI1; ev_write_config (g_discharge1 (balance adc s).1);
     ev_output_high CSBI1;
     ev_output_low CSBI2; ev_write_config (g_discharge1 (balance adc s).1);
     ev_output_high CSBI2] /\
  (balance adc (set_masks (g_discharge1 s) d2 s)).2 = (balance adc s).2 /\
  config_writes (main_loop_body adc1 adc s).2
  = [g_discharge1 (main_loop_body adc1 adc s).1;
     g_discharge1 (main_loop_body adc1 adc s).1].
Proof. repeat split. Qed.

(** C1, as the code has it: [balance] selects one reference for both
    groups, the slot whose average is the minimum over all eight populated
    slots (0..3 and 12..15), and decides every Lower and Upper cell
    against that one reference; the decisions are a function of the
    averages of the eight populated slots, of both groups. *)
Theorem one_reference_for_both_groups adc (s : state) :
  u16_averages (g_cell s) ->
  exists r : nat,
    r ∈ scan_order /\
    (forall j, j ∈ scan_order -> avg (g_cell s) r <= avg (g_cell s) j) /\
    (forall i, i ∈ scan_order ->
       (decision (balance adc s).1 i = true <->
        avg (g_cell s) i - avg (g_cell s) r > BALANCE_THRESHOLD)) /\
    (forall adc' (s' : state), same_averages (g_cell s) (g_cell s') ->
       forall i, i ∈ scan_order ->
         decision (balance adc' s').1 i = decision (balance adc s).1 i).
Proof.
  intros Hu. exists (get_lowest_voltage_cell_index (g_cell s)).
  split; [apply get_lowest_in_scan_order |]. split; [| split].
  - intros j Hj. apply get_lowest_minimal, Hj.
  - intros i Hi. rewrite decision_balance by exact Hi.
    apply over_threshold_lowest; assumption.
  - intros adc' s' Hs i Hi. rewrite !decision_balance by exact Hi.
    rewrite <- (get_lowest_ext _ _ Hs). symmetry.
    apply over_threshold_ext;
      [exact Hs | exact Hi | apply get_lowest_in_scan_order].
Qed.

End Claims.

(** ** The filter *)

Lemma total_app (u w : list Z) : total (u ++ w) = total u + total w.
Proof.
  unfold total. induction u as [| x u IH]; cbn; [reflexivity |].
  rewrite IH. lia.
Qed.

Lemma total_bounds (w : list Z) (b : Z) :
  Forall (fun x => 0 <= x < b) w ->
  0 <= total w <= Z.of_nat (length w) * (b - 1).
Proof.
  unfold total. induction 1 as [| x w Hx Hw IH]; cbn [foldr length]; lia.
Qed.

Lemma total_replicate (n : nat) (v : Z) :
  total (replicate n v) = Z.of_nat n * v.
Proof.
  unfold total. induction n as [| n IH]; cbn [replicate foldr]; lia.
Qed.

(** The inner loop after [m] turns: the sum of the first [m] samples as
    they were, and the history with its first [m] slots shifted down. *)
Lemma shift_loop_spec (smp : list Z) (m : nat) :
  (m < length smp)%nat ->
  foldl shift_step (0, smp) (seq 0 m)
  = (wrap32 (total (take m smp)), take m (drop 1 smp) ++ drop m smp).
Proof.
  induction m as [| m IH]; intros Hm.
  - cbn. rewrite drop_0. reflexivity.
  - rewrite seq_S, foldl_app, IH by lia. cbn [foldl Nat.add].
    unfold shift_step. cbn [fst snd].
    destruct (lookup_lt_is_Some_2 smp m ltac:(lia)) as [x Hx].
    destruct (lookup_lt_is_Some_2 smp (S m) ltac:(lia)) as [y Hy].
    assert (length (take m (drop 1 smp)) = m) as Hlen
      by (rewrite length_take, length_drop; lia).
    assert (drop 1 smp !! m = Some y) as Hy'
      by (rewrite lookup_drop; exact Hy).
    rewrite (drop_S smp x m Hx).
    assert (rd (take m (drop 1 smp) ++ x :: drop (S m) smp) m = x) as ->.
    { unfold rd. rewrite lookup_app_r by lia.
      rewrite Hlen, Nat.sub_diag. reflexivity. }
    assert (rd (take m (drop 1 smp) ++ x :: drop (S m) smp) (S m) = y) as ->.
    { unfold rd. rewrite lookup_app_r by lia.
      rewrite Hlen. replace (S m - m)%nat with 1%nat by lia.
      cbn. rewrite (drop_S smp y (S m) Hy). reflexivity. }
    f_equal.
    + rewrite (take_S_r smp m x Hx), total_app. unfold wrap32, total.
      cbn [foldr]. rewrite Z.add_mod_idemp_l by lia. f_equal. lia.
    + rewrite insert_app_r_alt by lia.
      rewrite Hlen, Nat.sub_diag. cbn [insert list_insert].
      rewrite (take_S_r (drop 1 smp) m y Hy'), <- app_assoc. reflexivity.
Qed.

Section Filter.
Context {h : main_h}.

(** One update of a cell: the history drops its oldest sample and takes
    the raw reading at its end; the average is computed from the reading
    and the first [N_SAMPLES - 1] samples of the history as it was. *)
Lemma update_cell_spec (c : cell_t) :
  (1 <= N_SAMPLES)%nat -> length (samples c) = N_SAMPLES ->
  samples (update_cell c) = drop 1 (samples c) ++ [voltage c] /\
  average_voltage (update_cell c)
  = wrap16 (wrap32 (total (take (N_SAMPLES - 1) (samples c)) + voltage c)
            / Z.of_nat N_SAMPLES).
Proof.
  intros HN Hlen. unfold update_cell.
  rewrite shift_loop_spec by lia. cbn [fst snd set_filter samples average_voltage].
  split.
  - rewrite (take_ge (drop 1 (samples c))) by (rewrite length_drop; lia).
    rewrite insert_app_r_alt by (rewrite length_drop; lia).
    rewrite length_drop.
    replace (N_SAMPLES - 1 - (length (samples c) - 1))%nat with 0%nat by lia.
    f_equal.
    destruct (drop (N_SAMPLES - 1) (samples c)) as [| x [| y l]] eqn:E;
      apply (f_equal length) in E; rewrite length_drop in E; cbn in E;
      try lia.
    reflexivity.
  - unfold wrap32. rewrite Z.add_mod_idemp_l by lia. reflexivity.
Qed.

(** With [unsigned int16] samples and a depth the sum of which fits in an
    [unsigned int32], nothing wraps. *)
Lemma update_cell_average (c : cell_t) :
  (1 <= N_SAMPLES)%nat -> Z.of_nat N_SAMPLES <= 2 ^ 16 ->
  length (samples c) = N_SAMPLES -> u16_cell c ->
  average_voltage (update_cell c)
  = (total (take (N_SAMPLES - 1) (samples c)) + voltage c)
    / Z.of_nat N_SAMPLES.
Proof.
  intros HN HN' Hlen [Hs Hv].
  destruct (update_cell_spec c HN Hlen) as [_ ->].
  assert (Forall (fun x => 0 <= x < 2 ^ 16) (take (N_SAMPLES - 1) (samples c)))
    as Ht by (apply Forall_take; exact Hs).
  apply total_bounds in Ht. rewrite length_take, Hlen in Ht.
  replace (N_SAMPLES - 1 `min` N_SAMPLES)%nat with (N_SAMPLES - 1)%nat
    in Ht by lia.
  set (T := total (take (N_SAMPLES - 1) (samples c))) in *.
  assert (0 <= T + voltage c < Z.of_nat N_SAMPLES * 2 ^ 16) as Hb by nia.
  unfold wrap32, wrap16.
  rewrite (Z.mod_small (T + voltage c)) by nia.
  apply Z.mod_small. split.
  - apply Z.div_pos; lia.
  - apply Z.div_lt_upper_bound; lia.
Qed.

(** The outer loop updates every cell of the array once. *)
Lemma update_cells_map (cells : list cell_t) :
  length cells = N_CELLS -> update_cells cells = update_cell <$> cells.
Proof.
  intros Hlen. apply list_eq. intros j. unfold update_cells, cell_at.
  rewrite (foldl_insert_lookup (fun _ c => update_cell c) (zero_cell 0))
    by apply NoDup_seq.
  rewrite list_lookup_fmap.
  destruct (decide (j ∈ seq 0 N_CELLS)) as [_ | Hn]; [reflexivity |].
  rewrite elem_of_seq in Hn.
  rewrite (lookup_ge_None_2 cells j) by lia. reflexivity.
Qed.

End Filter.

(** ** One turn of the main loop, the page, the tables *)

Section Loop.
Context {h : main_h}.

Lemma main_loop_body_decision adc1 adc2 (s : state) (i : nat) :
  decision (main_loop_body adc1 adc2 s).1 i
  = decision
      (balance adc2 (set_cells (ltc6804_read_cell_voltages adc1 (g_cell s)) s)).1
      i.
Proof. reflexivity. Qed.

Lemma main_loop_body_cells adc1 adc2 (s : state) :
  g_cell (main_loop_body adc1 adc2 s).1
  = update_cells
      (ltc6804_read_cell_voltages adc2
         (ltc6804_read_cell_voltages adc1 (g_cell s))).
Proof. reflexivity. Qed.

Lemma main_loop_body_discharge1 adc1 adc2 (s : state) :
  g_discharge1 (main_loop_body adc1 adc2 s).1
  = balance_lower (g_cell s) (get_lowest_voltage_cell_index (g_cell s))
      (g_discharge1 s).
Proof.
  change (g_discharge1 (main_loop_body adc1 adc2 s).1)
    with (g_discharge1
            (balance adc2
               (set_cells (ltc6804_read_cell_voltages adc1 (g_cell s)) s)).1).
  rewrite balance_discharge1. cbn [g_cell g_discharge1 set_cells].
  assert (same_averages
            (ltc6804_read_cell_voltages adc2
               (ltc6804_read_cell_voltages adc1 (g_cell s))) (g_cell s)) as Hs.
  { eapply same_averages_trans; apply same_averages_read. }
  rewrite (get_lowest_ext _ _ Hs).
  apply balance_lower_ext; [exact Hs | apply get_lowest_in_scan_order].
Qed.

(** C2, as the code has it: in a turn of the main loop the decisions are
    taken first, from the averages the turn starts with (those the turn
    before left; the readings of this turn play no part in them), and the
    configuration writes carry the mask so decided; the filter then
    updates every cell once, with the reading acquired inside [balance],
    so the new averages serve the next turn. *)
Theorem decisions_precede_filter_update adc1 adc2 (s : state) :
  length (g_cell s) = N_CELLS ->
  (forall i, i ∈ scan_order ->
     decision (main_loop_body adc1 adc2 s).1 i
     = over_threshold (g_cell s) i
         (get_lowest_voltage_cell_index (g_cell s))) /\
  config_writes (main_loop_body adc1 adc2 s).2
  = [balance_lower (g_cell s) (get_lowest_voltage_cell_index (g_cell s))
       (g_discharge1 s);
     balance_lower (g_cell s) (get_lowest_voltage_cell_index (g_cell s))
       (g_discharge1 s)] /\
  g_cell (main_loop_body adc1 adc2 s).1
  = update_cell <$>
      ltc6804_read_cell_voltages adc2
        (ltc6804_read_cell_voltages adc1 (g_cell s)) /\
  (forall i c, i ∈ scan_order -> g_cell s !! i = Some c ->
     g_cell (main_loop_body adc1 adc2 s).1 !! i
     = Some (update_cell (set_voltage (adc2 i) c))).
Proof.
  intros Hlen.
  assert (g_cell (main_loop_body adc1 adc2 s).1
          = update_cell <$>
              ltc6804_read_cell_voltages adc2
                (ltc6804_read_cell_voltages adc1 (g_cell s))) as Hcells.
  { rewrite main_loop_body_cells. apply update_cells_map.
    rewrite !length_read_cell_voltages. exact Hlen. }
  split; [| split; [| split]].
  - intros i Hi. rewrite main_loop_body_decision, decision_balance by exact Hi.
    cbn [g_cell set_cells].
    pose proof (same_averages_read adc1 (g_cell s)) as Hs.
    rewrite (get_lowest_ext _ _ Hs).
    apply over_threshold_ext;
      [exact Hs | exact Hi | apply get_lowest_in_scan_order].
  - rewrite <- (main_loop_body_discharge1 adc1 adc2 s). reflexivity.
  - exact Hcells.
  - intros i c Hi Hc. rewrite Hcells, list_lookup_fmap.
    rewrite !lookup_read_cell_voltages.
    destruct (decide (i ∈ scan_order)) as [_ | Hn]; [| contradiction].
    rewrite Hc. reflexivity.
Qed.

(** C3, as the code has it: [update_bms_page] copies by raw slot index.
    Position [i] of [voltages] receives the average of slot [i], stored as
    an [int16], for every [i] below both [N_CELLS] and [N_CELLS_FINAL]
    (the unpopulated slots 4..11 like any other); positions from that
    bound on keep what they held. *)
Theorem page_voltages_by_slot_index (s : state) :
  length (voltages (g_bms_page s)) = N_CELLS_FINAL ->
  length (voltages (g_bms_page (update_bms_page s))) = N_CELLS_FINAL /\
  forall i : nat,
    ((i < N_CELLS `min` N_CELLS_FINAL)%nat ->
     voltages (g_bms_page (update_bms_page s)) !! i
     = Some (to_int16 (avg (g_cell s) i))) /\
    ((N_CELLS `min` N_CELLS_FINAL <= i)%nat ->
     voltages (g_bms_page (update_bms_page s)) !! i
     = voltages (g_bms_page s) !! i).
Proof.
  intros Hlen. unfold update_bms_page. cbn [g_bms_page set_page voltages].
  split.
  - rewrite <- Hlen.
    apply (foldl_insert_length (fun _ i => to_int16 (avg (g_cell s) i))).
  - intros i.
    rewrite (foldl_insert_lookup (fun i _ => to_int16 (avg (g_cell s) i)) 0)
      by apply NoDup_seq.
    split; intros Hi.
    + destruct (decide (i ∈ seq 0 (N_CELLS `min` N_CELLS_FINAL))) as [_ | Hn].
      * destruct (lookup_lt_is_Some_2 (voltages (g_bms_page s)) i) as [v ->];
          [lia | reflexivity].
      * exfalso. apply Hn. apply elem_of_seq. lia.
    + destruct (decide (i ∈ seq 0 (N_CELLS `min` N_CELLS_FINAL))) as [Hin | _];
        [| reflexivity].
      apply elem_of_seq in Hin. lia.
Qed.

End Loop.

(** C8: in each sub-table of the registry the identifiers are pairwise
    distinct; the sub-tables have 8, 3 and 9 entries, as [N_CAN_ID],
    [N_TELEM_ID] and [N_CAN_MISC] say; the lengths are the declared ones,
    each telemetry length is the capacity of its page array and each CAN
    packet lies inside the page array it points in; identifier [0x0B]
    stands for length 30 in the telemetry table and [0x603] for length 6
    in the CAN table. *)
Theorem registry_ids_distinct_lengths_declared :
  (length CAN_ID_TABLE = N_CAN_ID /\ N_CAN_ID = 8%nat) /\
  (length TELEM_ID_TABLE = N_TELEM_ID /\ N_TELEM_ID = 3%nat) /\
  (length CAN_MISC_TABLE = N_CAN_MISC /\ N_CAN_MISC = 9%nat) /\
  NoDup (can_id <$> CAN_ID_TABLE) /\
  NoDup (telem_id <$> TELEM_ID_TABLE) /\
  NoDup (misc_id <$> CAN_MISC_TABLE) /\
  can_len <$> CAN_ID_TABLE = [8; 8; 8; 6; 8; 8; 8; 8] /\
  telem_len <$> TELEM_ID_TABLE = [30; 24; 8] /\
  Forall (fun e => telem_len e = page_capacity (telem_page e)) TELEM_ID_TABLE /\
  Forall (fun e => can_entry_fits e = true) CAN_ID_TABLE /\
  telem_len_of_id 0x0B = Some 30 /\
  can_len_of_id 0x603 = Some 6.
Proof.
  repeat match goal with |- _ /\ _ => split end; try reflexivity.
  - apply NoDup_ListNoDup. cbn. repeat constructor; cbn; intuition lia.
  - apply NoDup_ListNoDup. cbn. repeat constructor; cbn; intuition lia.
  - apply NoDup_ListNoDup. cbn. repeat constructor; cbn; intuition lia.
  - repeat constructor.
  - repeat constructor.
Qed.

(** ** Start-up and steady state *)

Lemma avg_insert_keep (cs : list cell_t) (i j : nat) (c : cell_t) :
  average_voltage c = avg cs i -> avg (<[i := c]> cs) j = avg cs j.
Proof.
  intros Hc. unfold avg, cell_at in *.
  destruct (decide (i = j)) as [-> | Hne].
  - destruct (cs !! j) as [c0 |] eqn:E.
    + rewrite list_lookup_insert_eq by (eapply lookup_lt_Some; exact E).
      exact Hc.
    + rewrite list_insert_ge by (apply lookup_ge_None; exact E).
      rewrite E. reflexivity.
  - rewrite list_lookup_insert_ne by exact Hne. reflexivity.
Qed.

Section Startup.
Context {h : main_h}.

(** [init_cells] writes the raw voltage, the temperature, the flags and
    the [discharge] constants; it leaves every average as it was. *)
Lemma avg_init_cells (s : state) (j : nat) :
  avg (g_cell (init_cells s)) j = avg (g_cell s) j.
Proof.
  unfold init_cells. cbn [g_cell].
  rewrite !avg_insert_keep by reflexivity.
  generalize (seq 0 N_CELLS). intros l. generalize (g_cell s).
  induction l as [| x l IH]; intros cs; [reflexivity |].
  cbn [foldl]. rewrite IH. apply avg_insert_keep. reflexivity.
Qed.

(** The masks [balance] computes after [init_cells] are those it computes
    without it: the constants 0x00, 0x02, 0x04, 0x08 play no part. *)
Lemma balance_after_init_cells adc (s : state) :
  g_discharge1 (balance adc (init_cells s)).1 = g_discharge1 (balance adc s).1 /\
  g_discharge2 (balance adc (init_cells s)).1 = g_discharge2 (balance adc s).1.
Proof.
  apply balance_masks_ext; try reflexivity.
  unfold same_averages. apply Forall_forall. intros i _. apply avg_init_cells.
Qed.

(** A cell whose history is all zero, fed one reading [v]: the average is
    [v / N_SAMPLES], rounded down. *)
Lemma update_cell_first_sample (c : cell_t) :
  (1 <= N_SAMPLES)%nat -> Z.of_nat N_SAMPLES <= 2 ^ 16 ->
  samples c = replicate N_SAMPLES 0 -> 0 <= voltage c < 2 ^ 16 ->
  average_voltage (update_cell c) = voltage c / Z.of_nat N_SAMPLES.
Proof.
  intros HN HN' Hs Hv. rewrite update_cell_average; try assumption.
  - rewrite Hs, take_replicate, total_replicate. f_equal. lia.
  - rewrite Hs. apply length_replicate.
  - split; [| exact Hv]. rewrite Hs. apply Forall_replicate. lia.
Qed.

(** A cell whose history is full of [v], fed [v] once more: the average
    is [v].  From any history this takes [N_SAMPLES + 1] equal readings,
    one more than the depth. *)
Lemma update_cell_steady (c : cell_t) :
  (1 <= N_SAMPLES)%nat -> Z.of_nat N_SAMPLES <= 2 ^ 16 ->
  samples c = replicate N_SAMPLES (voltage c) -> 0 <= voltage c < 2 ^ 16 ->
  average_voltage (update_cell c) = voltage c.
Proof.
  intros HN HN' Hs Hv. rewrite update_cell_average; try assumption.
  - rewrite Hs, take_replicate, total_replicate.
    rewrite Nat.min_l, Nat2Z.inj_sub by lia.
    replace ((Z.of_nat N_SAMPLES - Z.of_nat 1) * voltage c + voltage c)
      with (voltage c * Z.of_nat N_SAMPLES) by ring.
    apply Z.div_mul. lia.
  - rewrite Hs. apply length_replicate.
  - split; [| exact Hv]. rewrite Hs. apply Forall_replicate. exact Hv.
Qed.

End Startup.

(** ** The code run on the scenario *)

Lemma u16_averages_level_pack : u16_averages (g_cell level_pack).
Proof.
  unfold u16_averages. apply Forall_forall. intros i Hi.
  apply elem_of_scan_order in Hi.
  assert (i = 0 \/ i = 1 \/ i = 2 \/ i = 3 \/ i = 12 \/ i = 13 \/ i = 14
          \/ i = 15)%nat as Hc by lia.
  repeat (destruct Hc as [-> | Hc]); try subst i; vm_compute;
    (split; [discriminate | reflexivity]).
Qed.

(** C5 at a failing input: depth four, a cell of static storage fed 100
    and then 200.  The history then holds 0, 0, 100, 200, whose floor mean
    is 75; the code leaves 50 in [average_voltage], the sum having missed
    the 100 of the turn before.  Fed 100 four times, the history is full
    of 100 and [average_voltage] is 75. *)
Lemma filter_misses_previous_sample :
  samples (update_cell (h := scenario_h)
             (set_voltage 200
                (update_cell (h := scenario_h)
                   (set_voltage 100 (zero_cell 4)))))
  = [0; 0; 100; 200] /\
  window_mean [0; 0; 100; 200] = 75 /\
  average_voltage (update_cell (h := scenario_h)
                     (set_voltage 200
                        (update_cell (h := scenario_h)
                           (set_voltage 100 (zero_cell 4)))))
  = 50 /\
  samples (Nat.iter 4 (fun c => update_cell (h := scenario_h)
                                  (set_voltage 100 c)) (zero_cell 4))
  = [100; 100; 100; 100] /\
  average_voltage (Nat.iter 4 (fun c => update_cell (h := scenario_h)
                                          (set_voltage 100 c)) (zero_cell 4))
  = 75.
Proof. repeat split. Qed.

(** C1 refuted: two packs with the same Lower averages (100, 100, 200, 90)
    and different Upper averages.  With the Upper group level at 90 the
    decision for Lower cell 0 is false; with Upper cell 12 sagging to 10
    it is true, though against the minimum of its own group (cell 3, at
    90) cell 0 is not over the threshold. *)
Lemma lower_decision_follows_upper_cell :
  Forall (fun i => avg (g_cell level_pack) i = avg (g_cell sagging_pack) i)
         lower_slots /\
  decision (balance (h := scenario_h) quiet_adc level_pack).1 0 = false /\
  decision (balance (h := scenario_h) quiet_adc sagging_pack).1 0 = true /\
  over_threshold (h := scenario_h) (g_cell sagging_pack) 0 3 = false.
Proof. split; [repeat constructor | repeat split]. Qed.

(** C2 refuted: from reset, a turn whose readings put cell 2 at 800 and
    every other cell at 400.  After the turn the averages are 200 for
    cell 2 and 100 for the lowest cell, a difference over the threshold,
    and the decision the turn took for cell 2 is false: it was taken on
    the averages of before the update. *)
Lemma decision_misses_samples_of_its_turn :
  avg (g_cell (main_loop_body (h := scenario_h) uneven_adc uneven_adc
                 reset_state).1) 2 = 200 /\
  avg (g_cell (main_loop_body (h := scenario_h) uneven_adc uneven_adc
                 reset_state).1)
      (get_lowest_voltage_cell_index
         (g_cell (main_loop_body (h := scenario_h) uneven_adc uneven_adc
                    reset_state).1)) = 100 /\
  over_threshold (h := scenario_h)
    (g_cell (main_loop_body (h := scenario_h) uneven_adc uneven_adc
               reset_state).1) 2
    (get_lowest_voltage_cell_index
       (g_cell (main_loop_body (h := scenario_h) uneven_adc uneven_adc
                  reset_state).1)) = true /\
  decision (main_loop_body (h := scenario_h) uneven_adc uneven_adc
              reset_state).1 2 = false.
Proof. repeat split. Qed.

(** C3 refuted: slot [i] averaging [100 * (i + 1)].  Position 4 of
    [voltages] holds 500, the average of the unpopulated slot 4, and not
    1300, the average of the first Upper cell, slot 12. *)
Lemma page_position_4_holds_slot_4 :
  voltages (g_bms_page (update_bms_page (h := scenario_h) ramp_pack)) !! 4%nat
  = Some (avg (g_cell ramp_pack) 4) /\
  avg (g_cell ramp_pack) 4 = 500 /\
  avg (g_cell ramp_pack) 12 = 1300 /\
  voltages (g_bms_page (update_bms_page (h := scenario_h) ramp_pack)) !! 4%nat
  <> Some (to_int16 (avg (g_cell ramp_pack) 12)).
Proof. repeat split. vm_compute. discriminate. Qed.

(** The Upper mask can differ from the value written under CSBI2: on the
    sagging pack [g_discharge2] ends at 14 and both writes carry 15. *)
Lemma upper_mask_not_written :
  g_discharge2 (balance (h := scenario_h) quiet_adc sagging_pack).1 = 14 /\
  config_writes (balance (h := scenario_h) quiet_adc sagging_pack).2
  = [15; 15].
Proof. repeat split. Qed.

(** The worked scenario: averages 100, 100, 200, 90, the Upper group
    level with the reference; the Lower mask is [0b0100]. *)
Lemma scenario_lower_mask :
  g_discharge1 (balance (h := scenario_h) quiet_adc level_pack).1 = 4.
Proof. reflexivity. Qed.

(** ** Witnesses *)

Lemma decision_iff_above_reference_witness :
  u16_averages (g_cell level_pack) /\
  2%nat ∈ scan_order /\
  (decision (balance (h := scenario_h) quiet_adc level_pack).1 2 = true <->
   avg (g_cell level_pack) 2
   - avg (g_cell level_pack)
       (get_lowest_voltage_cell_index (g_cell level_pack))
   > BALANCE_THRESHOLD (main_h := scenario_h)) /\
  (0 <= BALANCE_THRESHOLD (main_h := scenario_h) ->
   decision (balance (h := scenario_h) quiet_adc level_pack).1
     (get_lowest_voltage_cell_index (g_cell level_pack)) = false).
Proof.
  split; [exact u16_averages_level_pack |].
  split; [apply elem_of_scan_order; lia |].
  apply (decision_iff_above_reference (h := scenario_h) quiet_adc level_pack 2).
  - exact u16_averages_level_pack.
  - apply elem_of_scan_order. lia.
Defined.

Lemma one_reference_for_both_groups_witness :
  u16_averages (g_cell level_pack) /\
  exists r : nat,
    r ∈ scan_order /\
    (forall j, j ∈ scan_order ->
       avg (g_cell level_pack) r <= avg (g_cell level_pack) j) /\
    (forall i, i ∈ scan_order ->
       (decision (balance (h := scenario_h) quiet_adc level_pack).1 i = true <->
        avg (g_cell level_pack) i - avg (g_cell level_pack) r
        > BALANCE_THRESHOLD (main_h := scenario_h))) /\
    (forall adc' (s' : state),
       same_averages (g_cell level_pack) (g_cell s') ->
       forall i, i ∈ scan_order ->
         decision (balance (h := scenario_h) adc' s').1 i
         = decision (balance (h := scenario_h) quiet_adc level_pack).1 i).
Proof.
  split; [exact u16_averages_level_pack |].
  apply (one_reference_for_both_groups (h := scenario_h) quiet_adc level_pack).
  exact u16_averages_level_pack.
Defined.

Lemma decisions_precede_filter_update_witness :
  length (g_cell reset_state) = N_CELLS (main_h := scenario_h) /\
  (forall i, i ∈ scan_order ->
     decision (main_loop_body (h := scenario_h) uneven_adc uneven_adc
                 reset_state).1 i
     = over_threshold (h := scenario_h) (g_cell reset_state) i
         (get_lowest_voltage_cell_index (g_cell reset_state))) /\
  config_writes (main_loop_body (h := scenario_h) uneven_adc uneven_adc
                   reset_state).2
  = [balance_lower (h := scenario_h) (g_cell reset_state)
       (get_lowest_voltage_cell_index (g_cell reset_state))
       (g_discharge1 reset_state);
     balance_lower (h := scenario_h) (g_cell reset_state)
       (get_lowest_voltage_cell_index (g_cell reset_state))
       (g_discharge1 reset_state)] /\
  g_cell (main_loop_body (h := scenario_h) uneven_adc uneven_adc
            reset_state).1
  = update_cell (h := scenario_h) <$>
      ltc6804_read_cell_voltages uneven_adc
        (ltc6804_read_cell_voltages uneven_adc (g_cell reset_state)) /\
  (forall i c, i ∈ scan_order -> g_cell reset_state !! i = Some c ->
     g_cell (main_loop_body (h := scenario_h) uneven_adc uneven_adc
               reset_state).1 !! i
     = Some (update_cell (h := scenario_h) (set_voltage (uneven_adc i) c))).
Proof.
  split; [reflexivity |].
  apply (decisions_precede_filter_update (h := scenario_h)
           uneven_adc uneven_adc reset_state).
  reflexivity.
Defined.

Lemma page_voltages_by_slot_index_witness :
  length (voltages (g_bms_page ramp_pack)) = N_CELLS_FINAL (main_h := scenario_h) /\
  length (voltages (g_bms_page (update_bms_page (h := scenario_h) ramp_pack)))
  = N_CELLS_FINAL (main_h := scenario_h) /\
  forall i : nat,
    ((i < N_CELLS (main_h := scenario_h) `min` N_CELLS_FINAL (main_h := scenario_h))%nat ->
     voltages (g_bms_page (update_bms_page (h := scenario_h) ramp_pack)) !! i
     = Some (to_int16 (avg (g_cell ramp_pack) i))) /\
    ((N_CELLS (main_h := scenario_h) `min` N_CELLS_FINAL (main_h := scenario_h) <= i)%nat ->
     voltages (g_bms_page (update_bms_page (h := scenario_h) ramp_pack)) !! i
     = voltages (g_bms_page ramp_pack) !! i).
Proof.
  split; [reflexivity |].
  apply (page_voltages_by_slot_index (h := scenario_h) ramp_pack).
  reflexivity.
Defined.

(** * The rest of the code *)

(** ** The scan for the highest cell *)

Lemma sorted_seq (a n : nat) : StronglySorted lt (seq a n).
Proof.
  revert a. induction n as [| n IH]; intros a; cbn [seq]; constructor.
  - apply IH.
  - apply Forall_forall. intros j Hj. apply elem_of_seq in Hj. lia.
Qed.

Section Highest.
Context {h : main_h}.
Variable cells : list cell_t.

Lemma foldl_highest_step_spec (l : list nat) (a : nat) :
  StronglySorted lt l -> Forall (le a) l ->
  exists r, r = foldl (highest_step cells) a l /\
  (r = a \/ r ∈ l) /\ (a <= r)%nat /\ volt cells a <= volt cells r /\
  forall j, j ∈ l ->
    volt cells j <= volt cells r /\
    (volt cells r <= volt cells j -> (j <= r)%nat).
Proof.
  intros Hs. revert a.
  induction Hs as [| x l Hs IH Hx]; intros a Ha; cbn [foldl].
  - exists a. split; [reflexivity |].
    split; [left; reflexivity |]. split; [lia |]. split; [lia |].
    intros j Hj. inversion Hj.
  - apply Forall_cons in Ha as [Hax Ha].
    assert (Forall (le (highest_step cells a x)) l) as Hle.
    { unfold highest_step. destruct (volt cells x >=? volt cells a).
      - eapply Forall_impl; [exact Hx |]. intros; cbn in *; lia.
      - exact Ha. }
    destruct (IH _ Hle) as (r & Er & Hin & Hge & Hv & Hall).
    exists r. split; [exact Er |]. clear Er.
    unfold highest_step in Hin, Hge, Hv. rewrite Z.geb_leb in Hin, Hge, Hv.
    destruct (Z.leb_spec (volt cells a) (volt cells x)) as [Hc | Hc].
    + split; [right; destruct Hin as [-> | Hin]; [left | right; exact Hin] |].
      split; [lia |]. split; [lia |].
      intros j Hj. apply elem_of_cons in Hj as [-> | Hj];
        [split; lia | apply Hall, Hj].
    + split.
      { destruct Hin as [-> | Hin];
          [left; reflexivity | right; right; exact Hin]. }
      split; [lia |]. split; [lia |].
      intros j Hj. apply elem_of_cons in Hj as [-> | Hj];
        [split; lia | apply Hall, Hj].
Qed.

(** X1: [get_highest_voltage_cell_index] returns a slot of the array (slot
    0 when the array is empty) whose raw [voltage] no slot below [N_CELLS]
    exceeds, and of the slots with that voltage the one of largest index;
    it scans all [N_CELLS] slots, the unpopulated ones too. *)
Theorem highest_cell_is_last_maximum :
  (get_highest_voltage_cell_index cells <= N_CELLS - 1)%nat /\
  forall j : nat, (j < N_CELLS)%nat ->
    volt cells j <= volt cells (get_highest_voltage_cell_index cells) /\
    (volt cells j = volt cells (get_highest_voltage_cell_index cells) ->
     (j <= get_highest_voltage_cell_index cells)%nat).
Proof.
  unfold get_highest_voltage_cell_index.
  destruct (foldl_highest_step_spec (seq 0 N_CELLS) 0 (sorted_seq 0 N_CELLS))
    as (r & <- & Hin & _ & _ & Hall).
  { apply Forall_forall. intros j _. lia. }
  split.
  - destruct Hin as [-> | Hin]; [lia |]. apply elem_of_seq in Hin. lia.
  - intros j Hj.
    destruct (Hall j) as [Hle Hlast]; [apply elem_of_seq; lia |].
    split; [exact Hle |]. intros E. apply Hlast. lia.
Qed.

End Highest.

(** ** The filter over a run of readings *)

Lemma total_between (w : list Z) (lo hi : Z) :
  Forall (fun x => lo <= x <= hi) w ->
  Z.of_nat (length w) * lo <= total w <= Z.of_nat (length w) * hi.
Proof.
  unfold total. induction 1 as [| x w Hx Hw IH]; cbn [foldr length]; lia.
Qed.

Section Run.
Context {h : main_h}.

Lemma sample_spec (v : Z) (c : cell_t) :
  (1 <= N_SAMPLES)%nat -> length (samples c) = N_SAMPLES ->
  samples (sample v c) = drop 1 (samples c) ++ [v] /\
  length (samples (sample v c)) = N_SAMPLES.
Proof.
  intros HN Hlen. unfold sample.
  destruct (update_cell_spec (set_voltage v c) HN Hlen) as [-> _].
  cbn [samples voltage set_voltage]. split; [reflexivity |].
  rewrite length_app, length_drop. cbn [length]. lia.
Qed.

Lemma feed_length (vs : list Z) (c : cell_t) :
  (1 <= N_SAMPLES)%nat -> length (samples c) = N_SAMPLES ->
  length (samples (feed vs c)) = N_SAMPLES.
Proof.
  intros HN. unfold feed. revert c.
  induction vs as [| v vs IH]; intros c Hlen; [exact Hlen |].
  cbn [foldl]. apply IH. apply sample_spec; assumption.
Qed.

Lemma feed_samples (vs : list Z) (c : cell_t) :
  (1 <= N_SAMPLES)%nat -> length (samples c) = N_SAMPLES ->
  samples (feed vs c) = drop (length vs) (samples c ++ vs).
Proof.
  intros HN. unfold feed. revert c.
  induction vs as [| v vs IH]; intros c Hlen.
  - cbn. rewrite app_nil_r. reflexivity.
  - cbn [foldl length].
    destruct (sample_spec v c HN Hlen) as [Hs Hl].
    rewrite IH by exact Hl. rewrite Hs.
    destruct (samples c) as [| x smp]; [cbn in Hlen; lia |].
    cbn [drop app]. rewrite <- app_assoc. reflexivity.
Qed.

Lemma feed_snoc (vs : list Z) (v : Z) (c : cell_t) :
  feed (vs ++ [v]) c = sample v (feed vs c).
Proof. unfold feed. rewrite foldl_snoc. reflexivity. Qed.

End Run.

Section RunProperties.
Context {h : main_h}.

Lemma sample_between (v lo hi : Z) (c : cell_t) :
  (1 <= N_SAMPLES)%nat -> Z.of_nat N_SAMPLES <= 2 ^ 16 ->
  length (samples c) = N_SAMPLES ->
  0 <= lo -> hi < 2 ^ 16 ->
  Forall (fun x => lo <= x <= hi) (samples c) -> lo <= v <= hi ->
  lo <= average_voltage (sample v c) <= hi.
Proof.
  intros HN HN' Hlen Hlo Hhi Hs Hv. unfold sample.
  rewrite update_cell_average; try assumption.
  - cbn [samples voltage set_voltage].
    assert (Forall (fun x => lo <= x <= hi) (take (N_SAMPLES - 1) (samples c)))
      as Ht by (apply Forall_take; exact Hs).
    apply total_between in Ht. rewrite length_take, Hlen in Ht.
    rewrite Nat.min_l in Ht by lia.
    rewrite Nat2Z.inj_sub in Ht by lia.
    set (T := total (take (N_SAMPLES - 1) (samples c))) in *.
    split.
    + apply Z.div_le_lower_bound; lia.
    + apply Z.div_le_upper_bound; lia.
  - split; cbn [samples voltage set_voltage]; [| lia].
    eapply Forall_impl; [exact Hs |]. intros x Hx. cbn in Hx. lia.
Qed.

Lemma feed_replicate_full (k : nat) (v : Z) (c : cell_t) :
  (1 <= N_SAMPLES)%nat -> length (samples c) = N_SAMPLES ->
  (N_SAMPLES <= k)%nat ->
  samples (feed (replicate k v) c) = replicate N_SAMPLES v.
Proof.
  intros HN Hlen Hk. rewrite feed_samples by assumption.
  rewrite length_replicate, drop_app_ge by lia.
  rewrite drop_replicate, Hlen. f_equal. lia.
Qed.

Lemma feed_steady (k : nat) (v : Z) (c : cell_t) :
  (1 <= N_SAMPLES)%nat -> Z.of_nat N_SAMPLES <= 2 ^ 16 ->
  length (samples c) = N_SAMPLES -> 0 <= v < 2 ^ 16 ->
  (N_SAMPLES + 1 <= k)%nat ->
  average_voltage (feed (replicate k v) c) = v.
Proof.
  intros HN HN' Hlen Hv Hk.
  destruct k as [| k]; [lia |].
  rewrite replicate_S_end, feed_snoc. unfold sample.
  apply (update_cell_steady (set_voltage v (feed (replicate k v) c)));
    try assumption.
  cbn [samples voltage set_voltage].
  apply feed_replicate_full; [assumption | assumption | lia].
Qed.

Lemma total_warm_window (k : nat) (v : Z) :
  (1 <= N_SAMPLES)%nat ->
  total (take (N_SAMPLES - 1)
           (drop k (replicate N_SAMPLES 0 ++ replicate k v)))
  = Z.of_nat (Nat.min (Nat.max k 1) N_SAMPLES - 1) * v.
Proof.
  intros HN. destruct (Nat.le_gt_cases k N_SAMPLES) as [Hle | Hgt].
  - destruct k as [| k].
    + cbn [replicate]. rewrite drop_0, app_nil_r, take_replicate, total_replicate.
      replace (Nat.min (Nat.max 0 1) N_SAMPLES - 1)%nat with 0%nat by lia.
      lia.
    + rewrite drop_app_le by (rewrite length_replicate; lia).
      rewrite drop_replicate.
      rewrite take_app_ge by (rewrite length_replicate; lia).
      rewrite length_replicate, take_replicate, total_app, !total_replicate.
      replace (Nat.min (N_SAMPLES - 1 - (N_SAMPLES - S k)) (S k))
        with (Nat.min (Nat.max (S k) 1) N_SAMPLES - 1)%nat by lia.
      lia.
  - rewrite drop_app_ge by (rewrite length_replicate; lia).
    rewrite length_replicate, drop_replicate, take_replicate, total_replicate.
    f_equal. f_equal. lia.
Qed.

(** X2: what one update of the filter does to a cell, nothing wrapping:
    the history drops its oldest sample and takes the raw reading at its
    end; the average is the floor of (the reading plus the first
    [N_SAMPLES - 1] samples of the history as it was) over [N_SAMPLES];
    the reading, the temperature, the discharge constant and the flags
    stay, and the cell still holds [unsigned int16] samples. *)
Theorem filter_update_window (c : cell_t) :
  (1 <= N_SAMPLES)%nat -> Z.of_nat N_SAMPLES <= 2 ^ 16 ->
  length (samples c) = N_SAMPLES -> u16_cell c ->
  samples (update_cell c) = drop 1 (samples c) ++ [voltage c] /\
  average_voltage (update_cell c)
  = (total (take (N_SAMPLES - 1) (samples c)) + voltage c)
    / Z.of_nat N_SAMPLES /\
  0 <= average_voltage (update_cell c) < 2 ^ 16 /\
  (voltage (update_cell c) = voltage c /\
   temperature (update_cell c) = temperature c /\
   discharge (update_cell c) = discharge c /\
   ov_flag (update_cell c) = ov_flag c /\
   uv_flag (update_cell c) = uv_flag c /\
   ot_flag (update_cell c) = ot_flag c) /\
  u16_cell (update_cell c).
Proof.
  intros HN HN' Hlen Hu.
  destruct (update_cell_spec c HN Hlen) as [Hs Ha].
  split; [exact Hs |]. split; [apply update_cell_average; assumption |].
  split; [rewrite Ha; apply Z.mod_pos_bound; lia |].
  split; [repeat split |].
  destruct Hu as [Hsm Hv]. split; [| exact Hv].
  rewrite Hs. apply Forall_app. split; [apply Forall_drop, Hsm |].
  apply Forall_cons. split; [exact Hv | apply Forall_nil; exact I].
Qed.

(** X3: the history is a FIFO of depth [N_SAMPLES].  After a run of
    readings it holds the last [N_SAMPLES] values of the old history
    followed by the readings, in order; after [N_SAMPLES] readings or
    more it holds the last [N_SAMPLES] readings and nothing of what it
    held before. *)
Theorem history_is_fifo (vs : list Z) (c : cell_t) :
  (1 <= N_SAMPLES)%nat -> length (samples c) = N_SAMPLES ->
  samples (feed vs c) = drop (length vs) (samples c ++ vs) /\
  length (samples (feed vs c)) = N_SAMPLES /\
  ((N_SAMPLES <= length vs)%nat ->
   samples (feed vs c) = drop (length vs - N_SAMPLES) vs).
Proof.
  intros HN Hlen. split; [apply feed_samples; assumption |].
  split; [apply feed_length; assumption |].
  intros Hk. rewrite feed_samples by assumption.
  rewrite drop_app_ge by lia. rewrite Hlen. reflexivity.
Qed.

(** X4: the filter never leaves the range of its inputs.  When the
    history and every reading of a run lie between [lo] and [hi], so does
    the average after the run. *)
Theorem average_stays_in_range (vs : list Z) (lo hi : Z) (c : cell_t) :
  (1 <= N_SAMPLES)%nat -> Z.of_nat N_SAMPLES <= 2 ^ 16 ->
  length (samples c) = N_SAMPLES ->
  0 <= lo -> hi < 2 ^ 16 ->
  Forall (fun x => lo <= x <= hi) (samples c) ->
  Forall (fun x => lo <= x <= hi) vs ->
  vs <> [] ->
  lo <= average_voltage (feed vs c) <= hi.
Proof.
  intros HN HN' Hlen Hlo Hhi Hs Hvs Hne.
  destruct vs as [| v0 vs0] using rev_ind; [contradiction |]. clear IHvs0.
  apply Forall_app in Hvs as [Hvs Hv]. apply Forall_cons in Hv as [Hv _].
  rewrite feed_snoc. apply sample_between; try assumption.
  - apply feed_length; assumption.
  - rewrite feed_samples by assumption. apply Forall_drop.
    apply Forall_app. split; assumption.
Qed.

(** X5: warm-up and steady state.  From a history of zeros, [k] equal
    readings [v] leave the average at [m * v / N_SAMPLES] with [m] the
    smaller of [N_SAMPLES] and the larger of [k - 1] and 1: the second
    reading does not raise the average, and the average reaches [v] at
    reading [N_SAMPLES + 1].  From any history, [N_SAMPLES + 1] equal
    readings or more leave the average at [v]. *)
Theorem warm_up_and_steady_state (k : nat) (v : Z) (c : cell_t) :
  (1 <= N_SAMPLES)%nat -> Z.of_nat N_SAMPLES <= 2 ^ 16 ->
  length (samples c) = N_SAMPLES -> 0 <= v < 2 ^ 16 -> (1 <= k)%nat ->
  (samples c = replicate N_SAMPLES 0 ->
   average_voltage (feed (replicate k v) c)
   = Z.of_nat (Nat.min (Nat.max (k - 1) 1) N_SAMPLES) * v
     / Z.of_nat N_SAMPLES) /\
  ((N_SAMPLES + 1 <= k)%nat ->
   average_voltage (feed (replicate k v) c) = v).
Proof.
  intros HN HN' Hlen Hv Hk. split; [| apply feed_steady; assumption].
  intros Hz. destruct k as [| k]; [lia |].
  rewrite replicate_S_end, feed_snoc. unfold sample.
  assert (samples (feed (replicate k v) c)
          = drop k (replicate N_SAMPLES 0 ++ replicate k v)) as Hs.
  { rewrite feed_samples, length_replicate, Hz by assumption. reflexivity. }
  rewrite update_cell_average; try assumption.
  - cbn [samples voltage set_voltage]. rewrite Hs, total_warm_window by lia.
    replace (S k - 1)%nat with k by lia. f_equal.
    rewrite Nat2Z.inj_sub by lia. lia.
  - cbn [samples set_voltage]. apply feed_length; assumption.
  - split; cbn [samples voltage set_voltage]; [| exact Hv].
    rewrite Hs. apply Forall_drop, Forall_app.
    split; apply Forall_replicate; lia.
Qed.

End RunProperties.

(** ** Runs of the main loop *)

Lemma read_cell_voltages_twice adc1 adc2 (cells : list cell_t) :
  ltc6804_read_cell_voltages adc2 (ltc6804_read_cell_voltages adc1 cells)
  = ltc6804_read_cell_voltages adc2 cells.
Proof.
  apply list_eq. intros j. rewrite !lookup_read_cell_voltages.
  destruct (decide (j ∈ scan_order)); [| reflexivity].
  destruct (cells !! j); reflexivity.
Qed.

Section Runs.
Context {h : main_h}.

Lemma balance_after_read adc1 adc2 (s : state) :
  balance adc2 (set_cells (ltc6804_read_cell_voltages adc1 (g_cell s)) s)
  = balance adc2 s.
Proof.
  unfold balance. cbn [g_cell g_discharge1 g_discharge2 set_cells].
  rewrite read_cell_voltages_twice. reflexivity.
Qed.

Lemma main_loop_body_unfold adc1 adc2 (s : state) :
  main_loop_body adc1 adc2 s
  = (update_bms_page (print_cell_voltages (balance adc2 s).1).1,
     [ev_read_cell_voltages] ++ (balance adc2 s).2
     ++ (print_cell_voltages (balance adc2 s).1).2
     ++ print_discharge_bits (print_cell_voltages (balance adc2 s).1).1
     ++ [ev_delay_ms 200]).
Proof. unfold main_loop_body. rewrite balance_after_read. reflexivity. Qed.

Lemma main_loop_body_cells_length adc1 adc2 (s : state) :
  length (g_cell (main_loop_body adc1 adc2 s).1) = length (g_cell s).
Proof.
  rewrite main_loop_body_cells. unfold update_cells.
  rewrite (foldl_insert_length (fun cs i => update_cell (cell_at cs i))).
  rewrite !length_read_cell_voltages. reflexivity.
Qed.

Lemma main_loop_body_cell adc1 adc2 (s : state) (i : nat) (c : cell_t) :
  length (g_cell s) = N_CELLS -> i ∈ scan_order -> g_cell s !! i = Some c ->
  g_cell (main_loop_body adc1 adc2 s).1 !! i = Some (sample (adc2 i) c).
Proof.
  intros Hlen Hi Hc. rewrite main_loop_body_cells, read_cell_voltages_twice.
  rewrite update_cells_map by (rewrite length_read_cell_voltages; exact Hlen).
  rewrite list_lookup_fmap, lookup_read_cell_voltages.
  destruct (decide (i ∈ scan_order)) as [_ | Hn]; [| contradiction].
  rewrite Hc. reflexivity.
Qed.

Lemma shift_loop_length (l : list nat) (acc : Z * list Z) :
  length (foldl shift_step acc l).2 = length acc.2.
Proof.
  revert acc. induction l as [| x l IH]; intros acc; [reflexivity |].
  cbn [foldl]. rewrite IH. unfold shift_step. cbn [snd].
  apply length_insert.
Qed.

Lemma update_cell_samples_length (c : cell_t) :
  length (samples (update_cell c)) = length (samples c).
Proof.
  unfold update_cell. cbn [samples set_filter].
  rewrite length_insert, shift_loop_length. reflexivity.
Qed.

Lemma main_loop_body_histories adc1 adc2 (s : state) :
  length (g_cell s) = N_CELLS -> full_histories (g_cell s) ->
  full_histories (g_cell (main_loop_body adc1 adc2 s).1).
Proof.
  intros Hlen Hf. rewrite main_loop_body_cells, read_cell_voltages_twice.
  rewrite update_cells_map by (rewrite length_read_cell_voltages; exact Hlen).
  unfold full_histories in *. rewrite Forall_lookup in *.
  intros j c' Hj. rewrite list_lookup_fmap, lookup_read_cell_voltages in Hj.
  destruct (g_cell s !! j) as [c |] eqn:Hc;
    [| destruct (decide _); discriminate].
  pose proof (Hf j c Hc) as Hl.
  destruct (decide (j ∈ scan_order)); cbn in Hj; injection Hj as <-;
    rewrite update_cell_samples_length; exact Hl.
Qed.

Lemma main_loop_snoc ins (a : (nat -> Z) * (nat -> Z)) (s : state) :
  (main_loop (ins ++ [a]) s).1
  = (main_loop_body a.1 a.2 (main_loop ins s).1).1.
Proof.
  revert s. induction ins as [| b ins IH]; intros s; [reflexivity |].
  cbn [app main_loop fst]. apply IH.
Qed.

Lemma main_loop_cells_length ins (s : state) :
  length (g_cell (main_loop ins s).1) = length (g_cell s).
Proof.
  revert s. induction ins as [| a ins IH]; intros s; [reflexivity |].
  cbn [main_loop fst]. rewrite IH. apply main_loop_body_cells_length.
Qed.

Lemma main_loop_histories ins (s : state) :
  length (g_cell s) = N_CELLS -> full_histories (g_cell s) ->
  full_histories (g_cell (main_loop ins s).1).
Proof.
  revert s. induction ins as [| a ins IH]; intros s Hlen Hf; [exact Hf |].
  cbn [main_loop fst]. apply IH.
  - rewrite main_loop_body_cells_length. exact Hlen.
  - apply main_loop_body_histories; assumption.
Qed.

Lemma main_loop_cell ins (s : state) (i : nat) (c : cell_t) :
  length (g_cell s) = N_CELLS -> i ∈ scan_order -> g_cell s !! i = Some c ->
  g_cell (main_loop ins s).1 !! i
  = Some (feed ((fun a : (nat -> Z) * (nat -> Z) => a.2 i) <$> ins) c).
Proof.
  intros Hlen Hi. revert s c Hlen.
  induction ins as [| a ins IH]; intros s c Hlen Hc; [exact Hc |].
  cbn [main_loop fst fmap list_fmap]. unfold feed. cbn [foldl].
  apply IH.
  - rewrite main_loop_body_cells_length. exact Hlen.
  - apply main_loop_body_cell; assumption.
Qed.

Lemma u16_averages_updated (cells : list cell_t) :
  u16_averages (update_cell <$> cells).
Proof.
  unfold u16_averages. apply Forall_forall. intros i _.
  unfold avg, cell_at. rewrite list_lookup_fmap.
  destruct (cells !! i) as [c |]; cbn.
  - unfold wrap16. apply Z.mod_pos_bound. lia.
  - lia.
Qed.

Lemma u16_averages_main_loop_body adc1 adc2 (s : state) :
  length (g_cell s) = N_CELLS ->
  u16_averages (g_cell (main_loop_body adc1 adc2 s).1).
Proof.
  intros Hlen. rewrite main_loop_body_cells.
  rewrite update_cells_map by (rewrite !length_read_cell_voltages; exact Hlen).
  apply u16_averages_updated.
Qed.

End Runs.

Section RunTheorems.
Context {h : main_h}.

Lemma main_loop_body_discharge2 adc1 adc2 (s : state) :
  g_discharge2 (main_loop_body adc1 adc2 s).1
  = balance_upper (g_cell s) (get_lowest_voltage_cell_index (g_cell s))
      (g_discharge2 s).
Proof.
  rewrite main_loop_body_unfold.
  change (g_discharge2 (update_bms_page
            (print_cell_voltages (balance adc2 s).1).1, _).1)
    with (g_discharge2 (balance adc2 s).1).
  rewrite balance_discharge2.
  pose proof (same_averages_read adc2 (g_cell s)) as Hs.
  rewrite (get_lowest_ext _ _ Hs).
  apply balance_upper_ext; [exact Hs | apply get_lowest_in_scan_order].
Qed.

Lemma main_loop_body_decides adc1 adc2 (s : state) (i : nat) :
  i ∈ scan_order ->
  decision (main_loop_body adc1 adc2 s).1 i
  = over_threshold (g_cell s) i (get_lowest_voltage_cell_index (g_cell s)).
Proof.
  intros Hi. rewrite main_loop_body_decision, balance_after_read.
  apply decision_balance, Hi.
Qed.

Lemma second_readings_constant (firsts : list (nat -> Z)) (adc : nat -> Z)
    (i : nat) :
  (fun a : (nat -> Z) * (nat -> Z) => a.2 i)
    <$> ((fun a1 => (a1, adc)) <$> firsts)
  = replicate (length firsts) (adc i).
Proof.
  induction firsts as [| a firsts IH]; [reflexivity |].
  cbn [fmap list_fmap length replicate snd]. f_equal. exact IH.
Qed.

(** X6: the acquisition at the top of the loop body is dead.  [balance]
    acquires again before anything reads a raw voltage, so the state and
    the events of a turn are the same whatever the first acquisition
    read. *)
Theorem first_acquisition_is_dead adc1 adc1' adc2 (s : state) :
  main_loop_body adc1 adc2 s = main_loop_body adc1' adc2 s.
Proof. rewrite !main_loop_body_unfold. reflexivity. Qed.

(** X7: over a run of the loop a populated cell is filtered once a turn,
    with the reading [balance] acquired for its slot: after the run the
    cell is the cell of the start fed those readings in order. *)
Theorem run_feeds_each_cell (ins : list ((nat -> Z) * (nat -> Z)))
    (s : state) (i : nat) (c : cell_t) :
  length (g_cell s) = N_CELLS -> i ∈ scan_order -> g_cell s !! i = Some c ->
  g_cell (main_loop ins s).1 !! i
  = Some (feed ((fun a : (nat -> Z) * (nat -> Z) => a.2 i) <$> ins) c) /\
  length (g_cell (main_loop ins s).1) = N_CELLS.
Proof.
  intros Hlen Hi Hc. split; [apply main_loop_cell; assumption |].
  rewrite main_loop_cells_length. exact Hlen.
Qed.

(** X8: after one turn or more the averages of the populated slots are
    [unsigned int16] values, whatever the state held before; so from the
    second turn on every decision is the comparison of the integers,
    [average - lowest average > BALANCE_THRESHOLD], with no wrap-around. *)
Theorem averages_u16_after_a_turn (ins : list ((nat -> Z) * (nat -> Z)))
    (s : state) :
  length (g_cell s) = N_CELLS -> ins <> [] ->
  u16_averages (g_cell (main_loop ins s).1) /\
  forall adc1 adc2 (i : nat), i ∈ scan_order ->
    (decision (main_loop_body adc1 adc2 (main_loop ins s).1).1 i = true <->
     avg (g_cell (main_loop ins s).1) i
     - avg (g_cell (main_loop ins s).1)
         (get_lowest_voltage_cell_index (g_cell (main_loop ins s).1))
     > BALANCE_THRESHOLD).
Proof.
  intros Hlen Hne.
  assert (u16_averages (g_cell (main_loop ins s).1)) as Hu.
  { destruct ins as [| a ins0] using rev_ind; [contradiction |].
    rewrite main_loop_snoc. apply u16_averages_main_loop_body.
    rewrite main_loop_cells_length. exact Hlen. }
  split; [exact Hu |].
  intros adc1 adc2 i Hi. rewrite main_loop_body_decides by exact Hi.
  apply over_threshold_lowest; assumption.
Qed.

(** X9: a steady pack converges.  When [balance] reads the same
    [unsigned int16] values [adc] for [N_SAMPLES + 1] turns or more, the
    average of every populated cell is its reading, whatever the
    histories held; on the turn after, a cell is discharged exactly when
    its reading exceeds the lowest reading of the eight cells by more
    than [BALANCE_THRESHOLD]. *)
Theorem steady_pack_converges (firsts : list (nat -> Z)) (adc : nat -> Z)
    (s : state) :
  (1 <= N_SAMPLES)%nat -> Z.of_nat N_SAMPLES <= 2 ^ 16 ->
  (16 <= N_CELLS)%nat -> length (g_cell s) = N_CELLS ->
  full_histories (g_cell s) -> u16_readings adc ->
  (N_SAMPLES + 1 <= length firsts)%nat ->
  (forall i, i ∈ scan_order ->
     avg (g_cell (main_loop ((fun a1 => (a1, adc)) <$> firsts) s).1) i
     = adc i) /\
  exists r : nat,
    r ∈ scan_order /\ (forall j, j ∈ scan_order -> adc r <= adc j) /\
    forall adc1 adc2 (i : nat), i ∈ scan_order ->
      (decision
         (main_loop_body adc1 adc2
            (main_loop ((fun a1 => (a1, adc)) <$> firsts) s).1).1 i = true
       <-> adc i - adc r > BALANCE_THRESHOLD).
Proof.
  intros HN HN' HC Hlen Hf Hadc Hk.
  set (s' := (main_loop ((fun a1 => (a1, adc)) <$> firsts) s).1).
  assert (forall i, i ∈ scan_order -> avg (g_cell s') i = adc i) as Havg.
  { intros i Hi. pose proof Hi as Hi'. apply elem_of_scan_order in Hi'.
    destruct (lookup_lt_is_Some_2 (g_cell s) i) as [c Hc]; [lia |].
    unfold avg, cell_at, s'.
    rewrite (main_loop_cell _ s i c Hlen Hi Hc), second_readings_constant.
    cbn [default]. apply feed_steady; try assumption.
    - unfold full_histories in Hf. rewrite Forall_lookup in Hf.
      apply (Hf i c Hc).
    - apply Hadc. }
  split; [exact Havg |].
  assert (u16_averages (g_cell s')) as Hu.
  { unfold u16_averages. apply Forall_forall. intros i Hi.
    rewrite (Havg i Hi). apply Hadc. }
  pose proof (get_lowest_in_scan_order (g_cell s')) as Hr.
  exists (get_lowest_voltage_cell_index (g_cell s')).
  split; [exact Hr |]. split.
  - intros j Hj. rewrite <- (Havg _ Hr), <- (Havg j Hj).
    apply get_lowest_minimal, Hj.
  - intros adc1 adc2 i Hi. rewrite main_loop_body_decides by exact Hi.
    rewrite <- (Havg _ Hr), <- (Havg i Hi).
    apply over_threshold_lowest; assumption.
Qed.

(** X10: the loop owns bits 0..3 of each mask and nothing else of it.
    Over any run, bits 4 and up of [g_discharge1] and of [g_discharge2]
    stay as they were, and masks that fit in sixteen bits still do. *)
Theorem run_keeps_upper_mask_bits (ins : list ((nat -> Z) * (nat -> Z)))
    (s : state) :
  (forall n : Z, 4 <= n ->
     Z.testbit (g_discharge1 (main_loop ins s).1) n
     = Z.testbit (g_discharge1 s) n /\
     Z.testbit (g_discharge2 (main_loop ins s).1) n
     = Z.testbit (g_discharge2 s) n) /\
  (0 <= g_discharge1 s < 2 ^ 16 ->
   0 <= g_discharge1 (main_loop ins s).1 < 2 ^ 16) /\
  (0 <= g_discharge2 s < 2 ^ 16 ->
   0 <= g_discharge2 (main_loop ins s).1 < 2 ^ 16).
Proof.
  revert s. induction ins as [| a ins IH]; intros s.
  - cbn [main_loop fst]. repeat split; lia.
  - cbn [main_loop fst].
    destruct (IH (main_loop_body a.1 a.2 s).1) as (Hb & H1 & H2).
    rewrite main_loop_body_discharge1, main_loop_body_discharge2 in *.
    split; [| split].
    + intros n Hn. destruct (Hb n Hn) as [-> ->].
      rewrite testbit_balance_lower, testbit_balance_upper by lia.
      destruct (Z.ltb_spec n 4); [lia |]. split; reflexivity.
    + intros Hd. apply H1, balance_lower_u16, Hd.
    + intros Hd. apply H2, balance_upper_u16, Hd.
Qed.

End RunTheorems.

(** ** More of balance *)

Lemma testbit_15 (n : Z) : 0 <= n -> Z.testbit 0xF n = (n <? 4).
Proof.
  intros Hn. change 0xF with (Z.ones 4).
  apply Z.testbit_ones_nonneg; lia.
Qed.

Lemma low_nibble_clear (d : Z) :
  (forall k : Z, 0 <= k < 4 -> Z.testbit d k = false) -> Z.land d 0xF = 0.
Proof.
  intros Hb. apply Z.bits_inj'. intros n Hn.
  rewrite Z.land_spec, testbit_15, Z.bits_0 by lia.
  destruct (Z.ltb_spec n 4); [| apply andb_false_r].
  rewrite Hb by lia. reflexivity.
Qed.

Lemma low_nibble_full (d : Z) (k : Z) :
  Z.land d 0xF = 0xF -> 0 <= k < 4 -> Z.testbit d k = true.
Proof.
  intros Hd Hk.
  assert (Z.testbit (Z.land d 0xF) k = true) as Hb.
  { rewrite Hd, testbit_15 by lia. destruct (Z.ltb_spec k 4); [reflexivity | lia]. }
  rewrite Z.land_spec in Hb. apply andb_true_iff in Hb as [Hb _]. exact Hb.
Qed.

Section Balance.
Context {h : main_h}.

Lemma decision_bit adc (s : state) (i : nat) :
  i ∈ scan_order ->
  (if (i <? 12)%nat
   then Z.testbit (g_discharge1 (balance adc s).1) (Z.of_nat i)
   else Z.testbit (g_discharge2 (balance adc s).1) (Z.of_nat (i - 12)))
  = over_threshold (g_cell s) i (get_lowest_voltage_cell_index (g_cell s)).
Proof. intros Hi. apply (decision_balance adc s i Hi). Qed.

Lemma decision_bit_lower adc (s : state) (k : nat) :
  (k < 4)%nat ->
  Z.testbit (g_discharge1 (balance adc s).1) (Z.of_nat k)
  = over_threshold (g_cell s) k (get_lowest_voltage_cell_index (g_cell s)).
Proof.
  intros Hk.
  rewrite <- (decision_balance adc s k) by (apply elem_of_scan_order; lia).
  unfold decision. destruct (Nat.ltb_spec k 12); [reflexivity | lia].
Qed.

Lemma decision_bit_upper adc (s : state) (k : nat) :
  (k < 4)%nat ->
  Z.testbit (g_discharge2 (balance adc s).1) (Z.of_nat k)
  = over_threshold (g_cell s) (12 + k)
      (get_lowest_voltage_cell_index (g_cell s)).
Proof.
  intros Hk.
  rewrite <- (decision_balance adc s (12 + k))
    by (apply elem_of_scan_order; lia).
  unfold decision. destruct (Nat.ltb_spec (12 + k) 12); [lia |].
  replace (12 + k - 12)%nat with k by lia. reflexivity.
Qed.

(** X11: the decisions of [balance] are monotone in the average: when a
    populated cell is discharged, so is every populated cell whose
    average is at least as high. *)
Theorem discharge_is_monotone adc (s : state) (i j : nat) :
  u16_averages (g_cell s) -> i ∈ scan_order -> j ∈ scan_order ->
  avg (g_cell s) i <= avg (g_cell s) j ->
  decision (balance adc s).1 i = true ->
  decision (balance adc s).1 j = true.
Proof.
  intros Hu Hi Hj Hle. rewrite !decision_balance by assumption.
  rewrite !over_threshold_lowest by assumption. lia.
Qed.

(** X12: what [balance] never does, for a threshold that is not negative.
    It never discharges all eight cells at once (the low nibbles of the
    two masks are never both [0xF]); when the averages of the populated
    cells lie within [BALANCE_THRESHOLD] of each other it discharges
    none (both low nibbles are zero). *)
Theorem balance_never_discharges_all adc (s : state) :
  u16_averages (g_cell s) -> 0 <= BALANCE_THRESHOLD ->
  ~ (Z.land (g_discharge1 (balance adc s).1) 0xF = 0xF /\
     Z.land (g_discharge2 (balance adc s).1) 0xF = 0xF) /\
  ((forall i j, i ∈ scan_order -> j ∈ scan_order ->
      avg (g_cell s) i - avg (g_cell s) j <= BALANCE_THRESHOLD) ->
   Z.land (g_discharge1 (balance adc s).1) 0xF = 0 /\
   Z.land (g_discharge2 (balance adc s).1) 0xF = 0).
Proof.
  intros Hu HT.
  pose proof (get_lowest_in_scan_order (g_cell s)) as Hr.
  split.
  - intros [H1 H2].
    assert (over_threshold (g_cell s)
              (get_lowest_voltage_cell_index (g_cell s))
              (get_lowest_voltage_cell_index (g_cell s)) = true) as Ho.
    { rewrite <- (decision_bit adc s _ Hr).
      apply elem_of_scan_order in Hr.
      destruct (Nat.ltb_spec (get_lowest_voltage_cell_index (g_cell s)) 12).
      - apply low_nibble_full; [exact H1 | lia].
      - apply low_nibble_full; [exact H2 | lia]. }
    apply (over_threshold_lowest (g_cell s) _ Hu Hr) in Ho. lia.
  - intros Hclose.
    assert (forall i, i ∈ scan_order ->
              over_threshold (g_cell s) i
                (get_lowest_voltage_cell_index (g_cell s)) = false) as Hno.
    { intros i Hi. apply not_true_is_false. intros Ho.
      apply (over_threshold_lowest (g_cell s) i Hu Hi) in Ho.
      specialize (Hclose i _ Hi Hr). lia. }
    split; apply low_nibble_clear; intros k Hk.
    + replace k with (Z.of_nat (Z.to_nat k)) by lia.
      rewrite (decision_bit_lower adc s (Z.to_nat k)) by lia.
      apply Hno. apply elem_of_scan_order. lia.
    + replace k with (Z.of_nat (Z.to_nat k)) by lia.
      rewrite (decision_bit_upper adc s (Z.to_nat k)) by lia.
      apply Hno. apply elem_of_scan_order. lia.
Qed.

End Balance.

(** ** The telemetry page *)

Lemma wrap16_to_int16 (x : Z) : wrap16 (to_int16 x) = wrap16 x.
Proof.
  unfold wrap16, to_int16. rewrite Zminus_mod_idemp_l. f_equal. lia.
Qed.

Lemma to_int32_small (x : Z) : 0 <= x < 2 ^ 31 -> to_int32 x = x.
Proof.
  intros Hx. unfold to_int32. rewrite Z.mod_small by lia. lia.
Qed.

Lemma pack_nibbles (d1 d2 : Z) :
  Z.lor (Z.shiftl (Z.land d2 0xF) 4) (Z.land d1 0xF)
  = (d2 mod 16) * 16 + d1 mod 16.
Proof.
  change 0xF with (Z.ones 4). rewrite !Z.land_ones by lia.
  change (2 ^ 4) with 16. rewrite Z.shiftl_mul_pow2 by lia.
  change (2 ^ 4) with 16.
  pose proof (Z.mod_pos_bound d1 16 ltac:(lia)) as H1.
  pose proof (Z.mod_pos_bound d2 16 ltac:(lia)) as H2.
  rewrite <- Z.lxor_lor, <- Z.add_nocarry_lxor; try reflexivity.
  - apply Z.bits_inj'. intros n Hn. rewrite Z.land_spec, Z.bits_0.
    destruct (Z.ltb_spec n 4) as [Hlt | Hge].
    + replace (d2 mod 16 * 16) with (Z.shiftl (d2 mod 16) 4)
        by (rewrite Z.shiftl_mul_pow2 by lia; reflexivity).
      rewrite Z.shiftl_spec_low by lia. reflexivity.
    + rewrite <- (Z.mod_small (d1 mod 16) (2 ^ 4)) by (change (2 ^ 4) with 16; lia).
      rewrite Z.mod_pow2_bits_high by lia. apply andb_false_r.
  - apply Z.bits_inj'. intros n Hn. rewrite Z.land_spec, Z.bits_0.
    destruct (Z.ltb_spec n 4) as [Hlt | Hge].
    + replace (d2 mod 16 * 16) with (Z.shiftl (d2 mod 16) 4)
        by (rewrite Z.shiftl_mul_pow2 by lia; reflexivity).
      rewrite Z.shiftl_spec_low by lia. reflexivity.
    + rewrite <- (Z.mod_small (d1 mod 16) (2 ^ 4)) by (change (2 ^ 4) with 16; lia).
      rewrite Z.mod_pow2_bits_high by lia. apply andb_false_r.
Qed.

Section Page.
Context {h : main_h}.

Lemma update_bms_page_discharge (s : state) :
  page_discharge (g_bms_page (update_bms_page s))
  = (g_discharge2 s mod 16) * 16 + g_discharge1 s mod 16.
Proof.
  unfold update_bms_page. cbn [g_bms_page set_page page_discharge].
  rewrite pack_nibbles.
  pose proof (Z.mod_pos_bound (g_discharge1 s) 16 ltac:(lia)).
  pose proof (Z.mod_pos_bound (g_discharge2 s) 16 ltac:(lia)).
  apply to_int32_small. lia.
Qed.

Lemma update_bms_page_voltage (s : state) (i : nat) :
  (i < N_CELLS `min` N_CELLS_FINAL)%nat ->
  (i < length (voltages (g_bms_page s)))%nat ->
  voltages (g_bms_page (update_bms_page s)) !! i
  = Some (to_int16 (avg (g_cell s) i)).
Proof.
  intros Hi Hlen. unfold update_bms_page. cbn [g_bms_page set_page voltages].
  rewrite (foldl_insert_lookup (fun i _ => to_int16 (avg (g_cell s) i)) 0)
    by apply NoDup_seq.
  destruct (decide (i ∈ seq 0 (N_CELLS `min` N_CELLS_FINAL))) as [_ | Hn].
  - destruct (lookup_lt_is_Some_2 (voltages (g_bms_page s)) i Hlen) as [v ->].
    reflexivity.
  - exfalso. apply Hn. apply elem_of_seq. lia.
Qed.

(** X13: the discharge field of the page packs the two masks in one byte:
    the low nibble of [g_discharge2] above the low nibble of
    [g_discharge1].  The value lies in 0..255, either nibble is read back
    from it by a division or a remainder by 16, nothing else of the masks
    reaches the page, and the current field is zero. *)
Theorem page_discharge_packs_nibbles (s : state) :
  page_discharge (g_bms_page (update_bms_page s))
  = (g_discharge2 s mod 16) * 16 + g_discharge1 s mod 16 /\
  0 <= page_discharge (g_bms_page (update_bms_page s)) < 256 /\
  page_discharge (g_bms_page (update_bms_page s)) mod 16
  = g_discharge1 s mod 16 /\
  page_discharge (g_bms_page (update_bms_page s)) / 16
  = g_discharge2 s mod 16 /\
  current (g_bms_page (update_bms_page s)) = 0.
Proof.
  rewrite update_bms_page_discharge.
  pose proof (Z.mod_pos_bound (g_discharge1 s) 16 ltac:(lia)) as H1.
  pose proof (Z.mod_pos_bound (g_discharge2 s) 16 ltac:(lia)) as H2.
  split; [reflexivity |]. split; [lia |]. split; [| split].
  - rewrite Z.add_comm, Z.mod_add by lia. apply Z.mod_mod. lia.
  - rewrite Z.add_comm, Z.div_add by lia.
    rewrite (Z.div_small (g_discharge1 s mod 16)) by lia. lia.
  - reflexivity.
Qed.

(** X14: the page a turn of the loop leaves.  Read as unsigned, position
    [i] of [voltages] is the average of slot [i] after the filter update
    of this turn; the discharge byte holds in bit [k] the decision for
    Lower cell [k] and in bit [4 + k] the decision for Upper cell
    [12 + k], both taken on the averages of before the update. *)
Theorem page_after_a_turn adc1 adc2 (s : state) :
  length (g_cell s) = N_CELLS ->
  length (voltages (g_bms_page s)) = N_CELLS_FINAL ->
  (forall i : nat, (i < N_CELLS `min` N_CELLS_FINAL)%nat ->
     exists v : Z,
       voltages (g_bms_page (main_loop_body adc1 adc2 s).1) !! i = Some v /\
       wrap16 v = avg (g_cell (main_loop_body adc1 adc2 s).1) i) /\
  (forall k : nat, (k < 4)%nat ->
     Z.testbit (page_discharge (g_bms_page (main_loop_body adc1 adc2 s).1))
       (Z.of_nat k)
     = over_threshold (g_cell s) k
         (get_lowest_voltage_cell_index (g_cell s)) /\
     Z.testbit (page_discharge (g_bms_page (main_loop_body adc1 adc2 s).1))
       (Z.of_nat (4 + k))
     = over_threshold (g_cell s) (12 + k)
         (get_lowest_voltage_cell_index (g_cell s))).
Proof.
  intros Hlen Hpage.
  rewrite main_loop_body_unfold. cbn [fst].
  set (s3 := (print_cell_voltages (balance adc2 s).1).1).
  assert (g_cell s3 = g_cell (main_loop_body adc1 adc2 s).1) as Hc3
    by (rewrite main_loop_body_unfold; reflexivity).
  assert (g_discharge1 s3 = g_discharge1 (balance adc2 s).1) as Hd1
    by reflexivity.
  assert (g_discharge2 s3 = g_discharge2 (balance adc2 s).1) as Hd2
    by reflexivity.
  split.
  - intros i Hi. exists (to_int16 (avg (g_cell s3) i)). split.
    + apply update_bms_page_voltage; [exact Hi |].
      change (g_bms_page s3) with (g_bms_page s). lia.
    + rewrite wrap16_to_int16.
      assert (u16_averages (g_cell s3)) as Hu
        by (rewrite Hc3; apply u16_averages_main_loop_body; exact Hlen).
      change (g_cell (update_bms_page s3)) with (g_cell s3).
      unfold avg, cell_at. rewrite Hc3, main_loop_body_cells.
      rewrite update_cells_map
        by (rewrite !length_read_cell_voltages; exact Hlen).
      rewrite list_lookup_fmap.
      destruct (_ !! i) as [c |]; cbn; [| reflexivity].
      unfold wrap16. apply Z.mod_mod. lia.
  - intros k Hk. rewrite update_bms_page_discharge, Hd1, Hd2.
    rewrite <- (decision_bit_lower adc2 s k Hk).
    rewrite <- (decision_bit_upper adc2 s k Hk).
    set (d1 := g_discharge1 (balance adc2 s).1).
    set (d2 := g_discharge2 (balance adc2 s).1).
    rewrite <- pack_nibbles.
    rewrite !Z.lor_spec, !Z.land_spec, !testbit_15 by lia.
    split.
    + rewrite Z.shiftl_spec_low by lia.
      destruct (Z.ltb_spec (Z.of_nat k) 4); [| lia].
      cbn. apply andb_true_r.
    + rewrite Z.shiftl_spec by lia. rewrite Z.land_spec, testbit_15 by lia.
      replace (Z.of_nat (4 + k) - 4) with (Z.of_nat k) by lia.
      destruct (Z.ltb_spec (Z.of_nat k) 4); [| lia].
      destruct (Z.ltb_spec (Z.of_nat (4 + k)) 4); [lia |].
      rewrite andb_true_r, andb_false_r. apply orb_false_r.
Qed.

End Page.

(** ** The debug line of the masks *)

Lemma of_bits_testbits (d : Z) (k n : nat) :
  of_bits (map (fun i => if Z.testbit d (Z.of_nat i) then 1 else 0) (seq k n))
  = Z.shiftr d (Z.of_nat k) mod 2 ^ Z.of_nat n.
Proof.
  revert k. induction n as [| n IH]; intros k.
  - cbn. rewrite Z.mod_1_r. reflexivity.
  - cbn [seq map of_bits foldr]. fold (of_bits
      (map (fun i => if Z.testbit d (Z.of_nat i) then 1 else 0) (seq (S k) n))).
    rewrite IH.
    replace (2 ^ Z.of_nat (S n)) with (2 * 2 ^ Z.of_nat n)
      by (rewrite Nat2Z.inj_succ, Z.pow_succ_r by lia; reflexivity).
    rewrite Z.rem_mul_r by lia.
    rewrite <- Z.bit0_mod, Z.shiftr_spec by lia.
    replace (Z.shiftr d (Z.of_nat k) / 2)
      with (Z.shiftr d (Z.of_nat (S k))).
    + rewrite Z.add_0_l. reflexivity.
    + rewrite !Z.shiftr_div_pow2 by lia.
      rewrite Nat2Z.inj_succ, Z.pow_succ_r by lia.
      rewrite Z.mul_comm, Z.div_div by lia. reflexivity.
Qed.

(** X15: [print_discharge_bits] prints two lines of sixteen binary
    digits, least significant first, and the digits of a line stand for
    the low sixteen bits of its mask: a mask that fits in sixteen bits is
    read back from its line. *)
Theorem discharge_bits_round_trip (s : state) :
  exists l1 l2 : list Z,
    print_discharge_bits s = [ev_printf l1; ev_printf l2] /\
    length l1 = 16%nat /\ length l2 = 16%nat /\
    of_bits l1 = g_discharge1 s mod 2 ^ 16 /\
    of_bits l2 = g_discharge2 s mod 2 ^ 16.
Proof.
  exists (bits16 (g_discharge1 s)), (bits16 (g_discharge2 s)).
  split; [reflexivity |]. split; [reflexivity |]. split; [reflexivity |].
  unfold bits16. rewrite !of_bits_testbits. rewrite !Z.shiftr_0_r.
  split; reflexivity.
Qed.

(** ** CAN packets over the telemetry pages *)

(** X16: the CAN packets tile the telemetry pages.  Every byte of every
    page array travels in exactly one packet of [CAN_ID_TABLE], and no
    packet carries a byte outside its page. *)
Theorem can_packets_tile_pages (p : page_t) (b : Z) :
  length (List.filter (fun e => can_carries e p b) CAN_ID_TABLE)
  = if (0 <=? b) && (b <? page_capacity p) then 1%nat else 0%nat.
Proof.
  destruct (Z.leb_spec 0 b) as [Hb | Hb]; cbn [andb].
  - destruct (Z.ltb_spec b (page_capacity p)) as [Hc | Hc].
    + assert (exists n : nat, b = Z.of_nat n /\ (n < 30)%nat) as (n & -> & Hn).
      { exists (Z.to_nat b). destruct p; cbn in Hc; lia. }
      destruct p; cbn in Hc;
        do 30 (destruct n as [| n]; [try reflexivity; lia |]); lia.
    + destruct p; cbn in Hc; unfold can_carries; cbn;
        repeat match goal with
               | |- context [?x <? ?y] => destruct (Z.ltb_spec x y); try lia
               | |- context [?x <=? ?y] => destruct (Z.leb_spec x y); try lia
               end; reflexivity.
  - unfold can_carries; cbn.
    repeat match goal with
           | |- context [?x <=? ?y] => destruct (Z.leb_spec x y); try lia
           end; destruct p; reflexivity.
Qed.

(** ** The millisecond timer *)

Lemma to_int16_add (x y : Z) : to_int16 (to_int16 x + y) = to_int16 (x + y).
Proof.
  unfold to_int16. f_equal.
  replace ((x + 2 ^ 15) mod 2 ^ 16 - 2 ^ 15 + y + 2 ^ 15)
    with ((x + 2 ^ 15) mod 2 ^ 16 + y) by lia.
  rewrite Zplus_mod_idemp_l. f_equal. lia.
Qed.

Lemma to_int16_small (x : Z) : - 2 ^ 15 <= x < 2 ^ 15 -> to_int16 x = x.
Proof.
  intros Hx. unfold to_int16. rewrite Z.mod_small by lia. lia.
Qed.

Lemma testbit_FF7F (m : Z) :
  0 <= m -> Z.testbit 0xFF7F m = (m <? 16) && negb (m =? 7).
Proof.
  intros Hm. destruct (Z.ltb_spec m 16) as [Hlt | Hge].
  - assert (exists n : nat, m = Z.of_nat n /\ (n < 16)%nat) as (n & -> & Hn)
      by (exists (Z.to_nat m); lia).
    do 16 (destruct n as [| n]; [reflexivity |]). lia.
  - apply Z.bits_above_log2; [lia |]. cbn. lia.
Qed.

Lemma isr_timer2_iter (n : nat) (t : timer_t) :
  - 2 ^ 15 <= g_ms t < 2 ^ 15 ->
  g_ms (Nat.iter n isr_timer2 t) = to_int16 (g_ms t + Z.of_nat n) /\
  forall m : Z, 0 <= m ->
    Z.testbit (IFS0 (Nat.iter n isr_timer2 t)) m
    = if (0 <? Z.of_nat n) then Z.testbit (IFS0 t) m && Z.testbit 0xFF7F m
      else Z.testbit (IFS0 t) m.
Proof.
  intros Hr. induction n as [| n [IHg IHf]].
  - cbn [Nat.iter]. split.
    + rewrite Z.add_0_r, to_int16_small by exact Hr. reflexivity.
    + intros m Hm. reflexivity.
  - rewrite Nat.iter_succ.
    set (t' := Nat.iter n isr_timer2 t) in *.
    unfold isr_timer2. cbn [g_ms IFS0]. split.
    + rewrite IHg, to_int16_add. f_equal. lia.
    + intros m Hm. rewrite Z.land_spec, IHf by exact Hm.
      destruct (Z.ltb_spec 0 (Z.of_nat (S n))); [| lia].
      destruct (Z.ltb_spec 0 (Z.of_nat n)); [| reflexivity].
      rewrite <- andb_assoc, andb_diag. reflexivity.
Qed.

(** X17: the timer interrupt.  After [n] interrupts the [int16]
    millisecond counter holds its start value plus [n], wrapped to sixteen
    bits in two's complement: plainly [g_ms + n] while that stays below
    32768, and the same value again every 65536 interrupts.  Each
    interrupt clears bit 7 of [IFS0] (the timer 2 flag) and leaves the
    other fifteen bits of the register as they were. *)
Theorem timer_counts_modulo_65536 (n : nat) (t : timer_t) :
  - 2 ^ 15 <= g_ms t < 2 ^ 15 ->
  g_ms (Nat.iter n isr_timer2 t) = to_int16 (g_ms t + Z.of_nat n) /\
  (g_ms t + Z.of_nat n < 2 ^ 15 ->
   g_ms (Nat.iter n isr_timer2 t) = g_ms t + Z.of_nat n) /\
  g_ms (Nat.iter (n + Z.to_nat (2 ^ 16)) isr_timer2 t)
  = g_ms (Nat.iter n isr_timer2 t) /\
  ((1 <= n)%nat ->
   Z.testbit (IFS0 (Nat.iter n isr_timer2 t)) 7 = false /\
   forall m : Z, 0 <= m < 16 -> m <> 7 ->
     Z.testbit (IFS0 (Nat.iter n isr_timer2 t)) m = Z.testbit (IFS0 t) m).
Proof.
  intros Hr.
  destruct (isr_timer2_iter n t Hr) as [Hg Hf].
  destruct (isr_timer2_iter (n + Z.to_nat (2 ^ 16)) t Hr) as [Hg' _].
  split; [exact Hg |]. split; [| split].
  - intros Hs. rewrite Hg. apply to_int16_small. lia.
  - rewrite Hg, Hg'. unfold to_int16. f_equal.
    replace (g_ms t + Z.of_nat (n + Z.to_nat (2 ^ 16)) + 2 ^ 15)
      with (g_ms t + Z.of_nat n + 2 ^ 15 + 1 * 2 ^ 16) by lia.
    apply Z_mod_plus_full.
  - intros Hn. split.
    + rewrite Hf by lia. destruct (Z.ltb_spec 0 (Z.of_nat n)); [| lia].
      rewrite testbit_FF7F by lia. apply andb_false_r.
    + intros m Hm Hne. rewrite Hf by lia.
      destruct (Z.ltb_spec 0 (Z.of_nat n)); [| lia].
      rewrite testbit_FF7F by lia.
      destruct (Z.ltb_spec m 16); [| lia].
      destruct (Z.eqb_spec m 7); [lia |]. apply andb_true_r.
Qed.

(** ** Start-up *)

Section Init.
Context {h : main_h}.

Lemma lookup_init_cells (s : state) (j : nat) :
  g_cell (init_cells s) !! j
  = (fun c =>
       (if decide (j ∈ [0; 1; 2; 3]%nat)
        then set_discharge (discharge_constant j) else id)
         ((if decide (j ∈ seq 0 N_CELLS) then init_cell else id) c))
    <$> g_cell s !! j.
Proof.
  unfold init_cells. cbn [g_cell].
  set (cells1 := foldl (fun cs i => <[i := init_cell (cell_at cs i)]> cs)
                       (g_cell s) (seq 0 N_CELLS)).
  transitivity
    (foldl (fun cs k =>
              <[k := set_discharge (discharge_constant k)
                       (default (zero_cell 0) (cs !! k))]> cs)
           cells1 [0; 1; 2; 3]%nat !! j); [reflexivity |].
  rewrite (foldl_insert_lookup
             (fun k c => set_discharge (discharge_constant k) c)
             (zero_cell 0)).
  2:{ apply NoDup_ListNoDup. repeat constructor; cbn; lia. }
  assert (cells1 !! j
          = if decide (j ∈ seq 0 N_CELLS) then init_cell <$> g_cell s !! j
            else g_cell s !! j) as ->.
  { unfold cells1, cell_at.
    apply (foldl_insert_lookup (fun _ c => init_cell c)), NoDup_seq. }
  destruct (g_cell s !! j) as [c |];
    destruct (decide (j ∈ [0; 1; 2; 3]%nat));
    destruct (decide (j ∈ seq 0 N_CELLS)); reflexivity.
Qed.

(** X18: [init_cells] zeroes the raw voltage, the temperature and the
    three flags of every cell below [N_CELLS] and stores 0x00, 0x02,
    0x04, 0x08 in the [discharge] fields of cells 0..3 (other cells keep
    theirs); it does not reset the filter: histories and averages stay as
    they were.  Run twice it changes nothing more. *)
Theorem init_cells_keeps_filter_state (s : state) :
  (forall (i : nat) (c : cell_t),
     (i < N_CELLS)%nat -> g_cell s !! i = Some c ->
     exists c' : cell_t,
       g_cell (init_cells s) !! i = Some c' /\
       voltage c' = 0 /\ temperature c' = 0 /\
       ov_flag c' = 0 /\ uv_flag c' = 0 /\ ot_flag c' = 0 /\
       samples c' = samples c /\ average_voltage c' = average_voltage c /\
       discharge c'
       = if (i <? 4)%nat then discharge_constant i else discharge c) /\
  g_highest_voltage_cell_index (init_cells s) = 0 /\
  g_lowest_voltage_cell_index (init_cells s) = 0 /\
  init_cells (init_cells s) = init_cells s.
Proof.
  split; [| split; [reflexivity | split; [reflexivity |]]].
  - intros i c Hi Hc. rewrite lookup_init_cells, Hc. cbn [fmap option_fmap option_map].
    eexists. split; [reflexivity |].
    destruct (decide (i ∈ seq 0 N_CELLS)) as [_ | Hn];
      [| exfalso; apply Hn, elem_of_seq; lia].
    destruct (decide (i ∈ [0; 1; 2; 3]%nat)) as [Hin | Hnin];
      destruct (Nat.ltb_spec i 4) as [Hlt | Hge]; cbn;
      repeat split; try reflexivity.
    + exfalso. apply list_elem_of_In in Hin. cbn in Hin. lia.
    + exfalso. apply Hnin. apply list_elem_of_In. cbn. lia.
  - assert (g_cell (init_cells (init_cells s)) = g_cell (init_cells s)) as Hc.
    { apply list_eq. intros j.
      rewrite (lookup_init_cells (init_cells s)), lookup_init_cells.
      destruct (g_cell s !! j) as [c |]; [| reflexivity].
      cbn [fmap option_fmap option_map].
      destruct (decide (j ∈ [0; 1; 2; 3]%nat));
        destruct (decide (j ∈ seq 0 N_CELLS)); reflexivity. }
    change (init_cells (init_cells s))
      with (mk_state (g_cell (init_cells (init_cells s))) (g_temps s) 0 0
              (g_discharge1 s) (g_discharge2 s) (g_bms_page s)).
    rewrite Hc. reflexivity.
Qed.

End Init.

(** ** Witnesses for the rest of the code *)

Lemma u16_averages_sagging_pack : u16_averages (g_cell sagging_pack).
Proof.
  unfold u16_averages. apply Forall_forall. intros i Hi.
  apply elem_of_scan_order in Hi.
  assert (i = 0 \/ i = 1 \/ i = 2 \/ i = 3 \/ i = 12 \/ i = 13 \/ i = 14
          \/ i = 15)%nat as Hc by lia.
  repeat (destruct Hc as [-> | Hc]); try subst i; vm_compute;
    (split; [discriminate | reflexivity]).
Qed.

Lemma u16_cell_first_reading : u16_cell (set_voltage 100 (zero_cell 4)).
Proof. split; [repeat constructor; lia | cbn; lia]. Qed.

Lemma u16_readings_steady_adc : u16_readings steady_adc.
Proof. intros i. unfold steady_adc. destruct (i =? 2)%nat; lia. Qed.

Lemma full_histories_reset_state :
  full_histories (h := scenario_h) (g_cell reset_state).
Proof. apply Forall_replicate. reflexivity. Qed.

Lemma filter_update_window_witness :
  (1 <= N_SAMPLES (main_h := scenario_h))%nat /\
  Z.of_nat (N_SAMPLES (main_h := scenario_h)) <= 2 ^ 16 /\
  length (samples (set_voltage 100 (zero_cell 4)))
  = N_SAMPLES (main_h := scenario_h) /\
  u16_cell (set_voltage 100 (zero_cell 4)) /\
  samples (update_cell (h := scenario_h) (set_voltage 100 (zero_cell 4)))
  = drop 1 (samples (set_voltage 100 (zero_cell 4))) ++ [100].
Proof.
  assert (1 <= N_SAMPLES (main_h := scenario_h))%nat as H1 by (cbn; lia).
  assert (Z.of_nat (N_SAMPLES (main_h := scenario_h)) <= 2 ^ 16) as H2
    by (cbn; lia).
  split; [exact H1 |]. split; [exact H2 |]. split; [reflexivity |].
  split; [exact u16_cell_first_reading |].
  exact (proj1 (filter_update_window (h := scenario_h)
           (set_voltage 100 (zero_cell 4)) H1 H2 eq_refl
           u16_cell_first_reading)).
Defined.

Lemma history_is_fifo_witness :
  (1 <= N_SAMPLES (main_h := scenario_h))%nat /\
  length (samples (zero_cell 4)) = N_SAMPLES (main_h := scenario_h) /\
  samples (feed (h := scenario_h) [1; 2; 3; 4; 5; 6] (zero_cell 4))
  = drop (length [1; 2; 3; 4; 5; 6]) (samples (zero_cell 4) ++ [1; 2; 3; 4; 5; 6]).
Proof.
  assert (1 <= N_SAMPLES (main_h := scenario_h))%nat as H1 by (cbn; lia).
  split; [exact H1 |]. split; [reflexivity |].
  exact (proj1 (history_is_fifo (h := scenario_h) [1; 2; 3; 4; 5; 6] (zero_cell 4)
           H1 eq_refl)).
Defined.

Lemma average_stays_in_range_witness :
  (1 <= N_SAMPLES (main_h := scenario_h))%nat /\
  Z.of_nat (N_SAMPLES (main_h := scenario_h)) <= 2 ^ 16 /\
  Forall (fun x => 3400 <= x <= 3700) [3500; 3600; 3500; 3600] /\
  Forall (fun x => 3400 <= x <= 3700) [3450; 3650] /\
  3400
  <= average_voltage
       (feed (h := scenario_h) [3450; 3650]
          (set_filter [3500; 3600; 3500; 3600] 3550 (zero_cell 4)))
  <= 3700.
Proof.
  assert (1 <= N_SAMPLES (main_h := scenario_h))%nat as H1 by (cbn; lia).
  assert (Z.of_nat (N_SAMPLES (main_h := scenario_h)) <= 2 ^ 16) as H2
    by (cbn; lia).
  assert (Forall (fun x => 3400 <= x <= 3700) [3500; 3600; 3500; 3600]) as H3
    by (repeat constructor; lia).
  assert (Forall (fun x => 3400 <= x <= 3700) [3450; 3650]) as H4
    by (repeat constructor; lia).
  split; [exact H1 |]. split; [exact H2 |]. split; [exact H3 |].
  split; [exact H4 |].
  exact (average_stays_in_range (h := scenario_h) [3450; 3650] 3400 3700
           (set_filter [3500; 3600; 3500; 3600] 3550 (zero_cell 4))
           H1 H2 eq_refl ltac:(lia) ltac:(lia) H3 H4 ltac:(discriminate)).
Defined.

Lemma warm_up_and_steady_state_witness :
  (1 <= N_SAMPLES (main_h := scenario_h))%nat /\
  Z.of_nat (N_SAMPLES (main_h := scenario_h)) <= 2 ^ 16 /\
  0 <= 100 < 2 ^ 16 /\
  average_voltage (feed (h := scenario_h) (replicate 3 100) (zero_cell 4))
  = Z.of_nat (Nat.min (Nat.max (3 - 1) 1) (N_SAMPLES (main_h := scenario_h)))
    * 100 / Z.of_nat (N_SAMPLES (main_h := scenario_h)).
Proof.
  assert (1 <= N_SAMPLES (main_h := scenario_h))%nat as H1 by (cbn; lia).
  assert (Z.of_nat (N_SAMPLES (main_h := scenario_h)) <= 2 ^ 16) as H2
    by (cbn; lia).
  assert (0 <= 100 < 2 ^ 16) as H3 by lia.
  split; [exact H1 |]. split; [exact H2 |]. split; [exact H3 |].
  exact (proj1 (warm_up_and_steady_state (h := scenario_h) 3 100 (zero_cell 4)
           H1 H2 eq_refl H3 ltac:(lia)) eq_refl).
Defined.

Lemma run_feeds_each_cell_witness :
  length (g_cell reset_state) = N_CELLS (main_h := scenario_h) /\
  2%nat ∈ scan_order /\
  g_cell reset_state !! 2%nat = Some (zero_cell 4) /\
  g_cell (main_loop (h := scenario_h) [(quiet_adc, uneven_adc)]
            reset_state).1 !! 2%nat
  = Some (feed (h := scenario_h)
            ((fun a : (nat -> Z) * (nat -> Z) => a.2 2%nat)
               <$> [(quiet_adc, uneven_adc)])
            (zero_cell 4)).
Proof.
  assert (2%nat ∈ scan_order) as H2 by (apply elem_of_scan_order; lia).
  split; [reflexivity |]. split; [exact H2 |]. split; [reflexivity |].
  exact (proj1 (run_feeds_each_cell (h := scenario_h) [(quiet_adc, uneven_adc)]
           reset_state 2 (zero_cell 4) eq_refl H2 eq_refl)).
Defined.

Lemma averages_u16_after_a_turn_witness :
  length (g_cell reset_state) = N_CELLS (main_h := scenario_h) /\
  [(quiet_adc, uneven_adc)] <> [] /\
  u16_averages
    (g_cell (main_loop (h := scenario_h) [(quiet_adc, uneven_adc)]
               reset_state).1).
Proof.
  assert ([(quiet_adc, uneven_adc)] <> []) as H2 by discriminate.
  split; [reflexivity |]. split; [exact H2 |].
  exact (proj1 (averages_u16_after_a_turn (h := scenario_h)
           [(quiet_adc, uneven_adc)] reset_state eq_refl H2)).
Defined.

Lemma steady_pack_converges_witness :
  (1 <= N_SAMPLES (main_h := scenario_h))%nat /\
  Z.of_nat (N_SAMPLES (main_h := scenario_h)) <= 2 ^ 16 /\
  (16 <= N_CELLS (main_h := scenario_h))%nat /\
  length (g_cell reset_state) = N_CELLS (main_h := scenario_h) /\
  full_histories (h := scenario_h) (g_cell reset_state) /\
  u16_readings steady_adc /\
  (N_SAMPLES (main_h := scenario_h) + 1
   <= length (replicate 5 quiet_adc))%nat /\
  forall i, i ∈ scan_order ->
    avg (g_cell (main_loop (h := scenario_h)
                   ((fun a1 => (a1, steady_adc)) <$> replicate 5 quiet_adc)
                   reset_state).1) i
    = steady_adc i.
Proof.
  assert (1 <= N_SAMPLES (main_h := scenario_h))%nat as H1 by (cbn; lia).
  assert (Z.of_nat (N_SAMPLES (main_h := scenario_h)) <= 2 ^ 16) as H2
    by (cbn; lia).
  assert (16 <= N_CELLS (main_h := scenario_h))%nat as H3 by (cbn; lia).
  assert (N_SAMPLES (main_h := scenario_h) + 1
          <= length (replicate 5 quiet_adc))%nat as H7 by (cbn; lia).
  split; [exact H1 |]. split; [exact H2 |]. split; [exact H3 |].
  split; [reflexivity |]. split; [exact full_histories_reset_state |].
  split; [exact u16_readings_steady_adc |]. split; [exact H7 |].
  exact (proj1 (steady_pack_converges (h := scenario_h) (replicate 5 quiet_adc)
           steady_adc reset_state H1 H2 H3 eq_refl
           full_histories_reset_state u16_readings_steady_adc H7)).
Defined.

Lemma discharge_is_monotone_witness :
  u16_averages (g_cell sagging_pack) /\
  0%nat ∈ scan_order /\ 2%nat ∈ scan_order /\
  avg (g_cell sagging_pack) 0 <= avg (g_cell sagging_pack) 2 /\
  decision (balance (h := scenario_h) quiet_adc sagging_pack).1 0 = true /\
  decision (balance (h := scenario_h) quiet_adc sagging_pack).1 2 = true.
Proof.
  assert (0%nat ∈ scan_order) as H0 by (apply elem_of_scan_order; lia).
  assert (2%nat ∈ scan_order) as H2 by (apply elem_of_scan_order; lia).
  assert (avg (g_cell sagging_pack) 0 <= avg (g_cell sagging_pack) 2) as Hle
    by (vm_compute; discriminate).
  split; [exact u16_averages_sagging_pack |].
  split; [exact H0 |]. split; [exact H2 |]. split; [exact Hle |].
  split; [reflexivity |].
  exact (discharge_is_monotone (h := scenario_h) quiet_adc sagging_pack 0 2
           u16_averages_sagging_pack H0 H2 Hle eq_refl).
Defined.

Lemma balance_never_discharges_all_witness :
  u16_averages (g_cell sagging_pack) /\
  0 <= BALANCE_THRESHOLD (main_h := scenario_h) /\
  ~ (Z.land (g_discharge1 (balance (h := scenario_h) quiet_adc
                             sagging_pack).1) 0xF = 0xF /\
     Z.land (g_discharge2 (balance (h := scenario_h) quiet_adc
                             sagging_pack).1) 0xF = 0xF).
Proof.
  assert (0 <= BALANCE_THRESHOLD (main_h := scenario_h)) as HT by (cbn; lia).
  split; [exact u16_averages_sagging_pack |]. split; [exact HT |].
  exact (proj1 (balance_never_discharges_all (h := scenario_h) quiet_adc sagging_pack
           u16_averages_sagging_pack HT)).
Defined.

Lemma page_after_a_turn_witness :
  length (g_cell reset_state) = N_CELLS (main_h := scenario_h) /\
  length (voltages (g_bms_page reset_state))
  = N_CELLS_FINAL (main_h := scenario_h) /\
  forall k : nat, (k < 4)%nat ->
    Z.testbit
      (page_discharge
         (g_bms_page (main_loop_body (h := scenario_h) quiet_adc uneven_adc
                        reset_state).1)) (Z.of_nat k)
    = over_threshold (h := scenario_h) (g_cell reset_state) k
        (get_lowest_voltage_cell_index (g_cell reset_state)) /\
    Z.testbit
      (page_discharge
         (g_bms_page (main_loop_body (h := scenario_h) quiet_adc uneven_adc
                        reset_state).1)) (Z.of_nat (4 + k))
    = over_threshold (h := scenario_h) (g_cell reset_state) (12 + k)
        (get_lowest_voltage_cell_index (g_cell reset_state)).
Proof.
  split; [reflexivity |]. split; [reflexivity |].
  exact (proj2 (page_after_a_turn (h := scenario_h) quiet_adc uneven_adc reset_state
           eq_refl eq_refl)).
Defined.

Lemma timer_counts_modulo_65536_witness :
  - 2 ^ 15 <= g_ms (mk_timer 32767 0xFFFF) < 2 ^ 15 /\
  g_ms (Nat.iter 1 isr_timer2 (mk_timer 32767 0xFFFF))
  = to_int16 (g_ms (mk_timer 32767 0xFFFF) + Z.of_nat 1).
Proof.
  assert (- 2 ^ 15 <= g_ms (mk_timer 32767 0xFFFF) < 2 ^ 15) as Hr
    by (cbn; lia).
  split; [exact Hr |].
  exact (proj1 (timer_counts_modulo_65536 1 (mk_timer 32767 0xFFFF) Hr)).
Defined.
